(** * Pipeline dashboard: the ingestion pipeline of [App.tsx] and [utils.ts]

    The dashboard fetches a Google Sheets "gviz" response, unwraps the
    JSONP envelope ([parseGoogleSheetsJSON], src/utils.ts), reads fixed
    column offsets out of the parsed table and publishes the result in the
    React state of the [App] component ([fetchData], src/App.tsx).

    The code is TypeScript over [any]-typed JSON, so the embedding starts
    with the part of the JavaScript runtime the code touches (strings as
    sequences of code units, IEEE binary64 numbers, JSON documents,
    property reads, [String()], [typeof], truthiness, [JSON.parse]) and
    then follows the two source functions statement by statement. *)

From Stdlib Require Import ZArith NArith List Bool Lia String Ascii.
From Stdlib Require Import SpecFloat.
Import ListNotations.

Local Open Scope Z_scope.

(** ** Strings

    A JavaScript string is a sequence of 16-bit code units.  Literals of the
    source are written [lit "..."]. *)

Definition codeunit := N.
Definition jsstring := list codeunit.

Definition ch (a : ascii) : codeunit := N_of_ascii a.

Definition lit (s : string) : jsstring := List.map ch (list_ascii_of_string s).

(** A JSON text, written with the apostrophe standing for the double
    quote. *)
Definition json_lit (s : string) : jsstring :=
  List.map (fun c => if N.eqb c 39 then 34%N else c) (lit s).

(** [text.indexOf(c)] for a one-character search string: the index of the
    first occurrence, or -1. *)
Fixpoint indexOf (s : jsstring) (c : codeunit) : Z :=
  match s with
  | [] => -1
  | x :: r =>
      if N.eqb x c then 0
      else match indexOf r c with
           | Zneg _ => -1
           | i => i + 1
           end
  end.

(** [text.lastIndexOf(c)]: the index of the last occurrence, or -1. *)
Fixpoint lastIndexOf (s : jsstring) (c : codeunit) : Z :=
  match s with
  | [] => -1
  | x :: r =>
      match lastIndexOf r c with
      | Zneg _ => if N.eqb x c then 0 else -1
      | i => i + 1
      end
  end.

(** [text.substring(start, end)]: both arguments are clamped to
    [0 .. length], and swapped when start > end. *)
Definition clamp (len i : Z) : Z := Z.min (Z.max i 0) len.

Definition substring (s : jsstring) (start finish : Z) : jsstring :=
  let len := Z.of_nat (List.length s) in
  let a := clamp len start in
  let b := clamp len finish in
  let from := Z.min a b in
  let to := Z.max a b in
  firstn (Z.to_nat (to - from)) (skipn (Z.to_nat from) s).

(** ** Numbers

    A JavaScript number is an IEEE 754 binary64 value; [spec_float] is its
    inductive description (sign, mantissa, exponent; zeros, infinities,
    NaN). *)

Definition number := spec_float.

Definition prec : Z := 53.
Definition emax : Z := 1024.

Definition NaN : number := S754_nan.
Definition zero : number := S754_zero false.

(** The number denoted by an integer (exact below 2^53, rounded above). *)
Definition number_of_Z (z : Z) : number := binary_normalize prec emax z 0 false.

Definition one : number := Eval vm_compute in number_of_Z 1.

(** The number nearest to [(-1)^neg * m * 10^e], ties to even: the value of
    a decimal literal of JSON. *)
Definition number_of_decimal (neg : bool) (m : Z) (e : Z) : number :=
  match m with
  | Zpos p =>
      if 0 <=? e then binary_normalize prec emax (Z.mul (if neg then Zneg p else Zpos p) (10 ^ e)) 0 neg
      else
        let '(q, e', l) := SFdiv_core_binary prec emax (Zpos p) 0 (10 ^ (- e)) 0 in
        binary_round_aux prec emax neg q e' l
  | _ => S754_zero neg
  end.

(** [Math.abs]. *)
Definition Math_abs (x : number) : number := SFabs x.

(** [x === y] on numbers, [x < y], [x <= y]. *)
Definition number_eqb (x y : number) : bool := SFeqb x y.
Definition number_ltb (x y : number) : bool := SFltb x y.
Definition number_leb (x y : number) : bool := SFleb x y.

(** *** [Number::toString] (radix 10)

    ECMAScript picks the shortest digit string [s] (of [k] digits) and the
    exponent [n] such that [s * 10^(n-k)] reads back as the number, and the
    closest such [s] when several exist.  Everything is computed on
    integers: the number is [m * 2^e], and the two neighbours' midpoints
    are [(4m - lo) * 2^(e-2)] and [(4m + 2) * 2^(e-2)]. *)

Definition digit (d : Z) : codeunit := Z.to_N (48 + d).

Fixpoint digits_more (fuel : nat) (z : Z) (acc : jsstring) : jsstring :=
  match fuel with
  | O => acc
  | S f => if z <=? 0 then acc else digits_more f (z / 10) (digit (z mod 10) :: acc)
  end.

(** Decimal digits of a natural number, most significant first; never
    empty. *)
Definition digits (z : Z) : jsstring :=
  digits_more (Z.to_nat (Z.log2 z) + 1) (z / 10) [digit (z mod 10)].

(** The least [n], searching upwards from [n0], with [m * 2^e < 10^n]. *)
Fixpoint magnitude (fuel : nat) (m : positive) (e : Z) (n : Z) : Z :=
  match fuel with
  | O => n
  | S f =>
      let lhs := Zpos m * 2 ^ Z.max e 0 * 10 ^ Z.max (- n) 0 in
      let rhs := 2 ^ Z.max (- e) 0 * 10 ^ Z.max n 0 in
      if lhs <? rhs then n else magnitude f m e (n + 1)
  end.

Record shortest := { sh_s : Z; sh_n : Z }.

(** The candidates with [k] digits around [m * 2^e], given its magnitude
    [n]: the [k]-digit truncation and its successor, kept when they read
    back as the number; the closer one wins, the even one on a tie. *)
Definition candidate (m : positive) (e n k : Z) : option shortest :=
  let t := n - k in
  let up := 2 ^ Z.max e 0 * 10 ^ Z.max (- t) 0 in
  let den := 4 * 2 ^ Z.max (- e) 0 * 10 ^ Z.max t 0 in
  let x4 := 4 * Zpos m * up in
  let below := if andb (Pos.eqb m 4503599627370496) (-1074 <? e) then 1 else 2 in
  let lo4 := (4 * Zpos m - below) * up in
  let hi4 := (4 * Zpos m + 2) * up in
  let inside (s : Z) :=
    if Z.even (Zpos m) then andb (lo4 <=? s * den) (s * den <=? hi4)
    else andb (lo4 <? s * den) (s * den <? hi4) in
  let s0 := x4 / den in
  let s1 := s0 + 1 in
  let pack (s : Z) :=
    if s <? 10 ^ k then {| sh_s := s; sh_n := n |}
    else {| sh_s := s / 10; sh_n := n + 1 |} in
  let d0 := x4 - s0 * den in
  let d1 := s1 * den - x4 in
  match andb (10 ^ (k - 1) <=? s0) (inside s0), inside s1 with
  | true, true =>
      if d0 <? d1 then Some (pack s0)
      else if d1 <? d0 then Some (pack s1)
      else Some (pack (if Z.even s0 then s0 else s1))
  | true, false => Some (pack s0)
  | false, true => Some (pack s1)
  | false, false => None
  end.

(** The shortest candidate: [k] runs from 1 to 16; failing those, the
    closest 17-digit string, which always reads back as the number; of two
    17-digit strings at the same distance the even one is taken. *)
Fixpoint shortest_from (fuel : nat) (m : positive) (e n k : Z) : shortest :=
  match fuel with
  | O =>
      let den := 4 * 2 ^ Z.max (- e) 0 * 10 ^ Z.max (n - k) 0 in
      let x4 := 4 * Zpos m * (2 ^ Z.max e 0 * 10 ^ Z.max (k - n) 0) in
      let s0 := x4 / den in
      let d0 := x4 - s0 * den in
      let d1 := (s0 + 1) * den - x4 in
      {| sh_s := if d0 <? d1 then s0
                 else if d1 <? d0 then s0 + 1
                 else if Z.even s0 then s0 else s0 + 1;
         sh_n := n |}
  | S f =>
      match candidate m e n k with
      | Some c => c
      | None => shortest_from f m e n (k + 1)
      end
  end.

Definition zeros (n : Z) : jsstring := List.repeat (ch "0") (Z.to_nat n).

Definition format_shortest (c : shortest) : jsstring :=
  let ds := digits (sh_s c) in
  let n := sh_n c in
  let k := Z.of_nat (List.length ds) in
  if andb (k <=? n) (n <=? 21) then ds ++ zeros (n - k)
  else if andb (0 <? n) (n <=? 21) then
    firstn (Z.to_nat n) ds ++ ch "." :: skipn (Z.to_nat n) ds
  else if andb (-6 <? n) (n <=? 0) then
    ch "0" :: ch "." :: zeros (- n) ++ ds
  else
    let ex := n - 1 in
    let sign := if ex <? 0 then ch "-" else ch "+" in
    match ds with
    | [d] => d :: ch "e" :: sign :: digits (Z.abs ex)
    | d :: more => d :: ch "." :: more ++ ch "e" :: sign :: digits (Z.abs ex)
    | [] => []
    end.

Definition Number_toString (x : number) : jsstring :=
  match x with
  | S754_nan => lit "NaN"
  | S754_zero _ => lit "0"
  | S754_infinity s => if s then lit "-Infinity" else lit "Infinity"
  | S754_finite s m e =>
      let n := magnitude 700 m e (-330) in
      let body := format_shortest (shortest_from 16 m e n 1) in
      if s then ch "-" :: body else body
  end.

(** ** JSON documents and runtime values *)

Set Warnings "-register-all".

Inductive json :=
  | JNull
  | JBool (b : bool)
  | JNum (n : number)
  | JStr (s : jsstring)
  | JArr (items : list json)
  | JObj (members : list (jsstring * json)).

(** The value of an expression: a JSON value or [undefined]. *)
Definition value := option json.
Definition undefined : value := None.

(** Thrown values: [Error] and [TypeError] objects with their message, or
    something that is not an [Error] instance. *)
Inductive exn :=
  | Error (message : jsstring)
  | TypeError (message : jsstring)
  | NotAnError.

Inductive result (A : Type) :=
  | Ok (a : A)
  | Throw (e : exn).

Arguments Ok {A} a.
Arguments Throw {A} e.

Definition bind {A B : Type} (r : result A) (k : A -> result B) : result B :=
  match r with
  | Ok a => k a
  | Throw e => Throw e
  end.

Notation "x <- r ;; k" := (bind r (fun x => k))
  (at level 61, r at next level, right associativity).

Fixpoint str_eqb (a b : jsstring) : bool :=
  match a, b with
  | [], [] => true
  | x :: a', y :: b' => andb (N.eqb x y) (str_eqb a' b')
  | _, _ => false
  end.

(** The own property [key] of an object literal; of two members with the
    same key the later one is the property's value. *)
Fixpoint own (members : list (jsstring * json)) (key : jsstring) : value :=
  match members with
  | [] => None
  | (k, v) :: rest =>
      match own rest key with
      | Some later => Some later
      | None => if str_eqb k key then Some v else None
      end
  end.

(** [v?.key], and [v.key] where [v] is known not to be null or undefined,
    for the property names the program reads ([table], [rows], [c], [v]):
    none of them exists on a prototype, so only an object's own member
    answers. *)
Definition get (v : value) (key : jsstring) : value :=
  match v with
  | Some (JObj members) => own members key
  | _ => None
  end.

(** [v.key] without a guard: reading a property of null or undefined
    throws. *)
Definition member (v : value) (key : jsstring) : result value :=
  match v with
  | None =>
      Throw (TypeError (lit "Cannot read properties of undefined (reading '" ++ key ++ lit "')"))
  | Some JNull =>
      Throw (TypeError (lit "Cannot read properties of null (reading '" ++ key ++ lit "')"))
  | Some _ => Ok (get v key)
  end.

(** [v[i]] for an index literal, [v] not null or undefined: an array
    element, a character of a string, an object's member named by the
    digits. *)
Definition index (v : value) (i : nat) : value :=
  match v with
  | Some (JArr items) => nth_error items i
  | Some (JStr s) =>
      match nth_error s i with
      | Some c => Some (JStr [c])
      | None => None
      end
  | Some (JObj members) => own members (digits (Z.of_nat i))
  | _ => None
  end.

(** [v.length], [v] not null or undefined. *)
Definition length_of (v : value) : value :=
  match v with
  | Some (JArr items) => Some (JNum (number_of_Z (Z.of_nat (List.length items))))
  | Some (JStr s) => Some (JNum (number_of_Z (Z.of_nat (List.length s))))
  | Some (JObj members) => own members (lit "length")
  | _ => None
  end.

Definition typeof (v : value) : jsstring :=
  match v with
  | None => lit "undefined"
  | Some (JBool _) => lit "boolean"
  | Some (JNum _) => lit "number"
  | Some (JStr _) => lit "string"
  | Some JNull | Some (JArr _) | Some (JObj _) => lit "object"
  end.

(** [typeof v === 'number'], with the number when it holds. *)
Definition as_number (v : value) : option number :=
  if str_eqb (typeof v) (lit "number") then
    match v with
    | Some (JNum n) => Some n
    | _ => None
    end
  else None.

(** Truthiness of a number: false for both zeros and NaN. *)
Definition number_truthy (n : number) : bool :=
  match n with
  | S754_zero _ | S754_nan => false
  | _ => true
  end.

Definition str_truthy (s : jsstring) : bool :=
  match s with
  | [] => false
  | _ => true
  end.

(** [ToBoolean]. *)
Definition truthy (v : value) : bool :=
  match v with
  | None | Some JNull => false
  | Some (JBool b) => b
  | Some (JNum n) => number_truthy n
  | Some (JStr s) => str_truthy s
  | Some (JArr _) | Some (JObj _) => true
  end.

(** [v === 0]. *)
Definition strict_eq_zero (v : value) : bool :=
  match v with
  | Some (JNum n) => number_eqb n zero
  | _ => false
  end.

Fixpoint join (sep : jsstring) (parts : list jsstring) : jsstring :=
  match parts with
  | [] => []
  | [p] => p
  | p :: rest => p ++ sep ++ join sep rest
  end.

Fixpoint sequence {A : Type} (rs : list (result A)) : result (list A) :=
  match rs with
  | [] => Ok []
  | r :: rest => a <- r ;; l <- sequence rest ;; Ok (a :: l)
  end.

(** [String(v)] for a JSON value.  An array joins its elements with commas,
    null elements printing as nothing.  A plain object prints through
    [Object.prototype.toString], unless it has an own member [toString]:
    that member, coming from JSON, is not callable, [valueOf] yields no
    primitive, and the conversion throws. *)
Fixpoint ToString (v : json) : result jsstring :=
  match v with
  | JNull => Ok (lit "null")
  | JBool b => Ok (if b then lit "true" else lit "false")
  | JNum n => Ok (Number_toString n)
  | JStr s => Ok s
  | JArr items =>
      parts <- sequence (List.map (fun e => match e with
                                            | JNull => Ok []
                                            | _ => ToString e
                                            end) items) ;;
      Ok (join (lit ",") parts)
  | JObj members =>
      match own members (lit "toString") with
      | Some _ => Throw (TypeError (lit "Cannot convert object to primitive value"))
      | None => Ok (lit "[object Object]")
      end
  end.

(** ** [JSON.parse]

    The JSON grammar of ECMA-404 as a pushdown automaton that reads one
    code unit at a time: [mode] says what may come next, the stack holds
    the arrays and objects still open.  The automaton is total; a text
    is rejected ([None], the [SyntaxError] of [JSON.parse]) as soon as a
    code unit cannot continue it, or when it ends too early. *)

Inductive numstate :=
  | NMinus      (* after '-' *)
  | NZero       (* after a leading 0 *)
  | NInt        (* in the integer digits *)
  | NDot        (* after '.' *)
  | NFrac       (* in the fraction digits *)
  | NExpE       (* after 'e' or 'E' *)
  | NExpSign    (* after the exponent's sign *)
  | NExp.       (* in the exponent digits *)

Record numacc := {
  na_neg : bool;      (* a leading '-' *)
  na_mant : Z;        (* integer and fraction digits read as one integer *)
  na_frac : Z;        (* how many of them are fraction digits *)
  na_eneg : bool;     (* the exponent's sign *)
  na_exp : Z          (* the exponent digits *)
}.

Inductive frame :=
  | InArr (seen : list json)
  | InObj (seen : list (jsstring * json)) (key : jsstring).

Inductive mode :=
  | MValue                                  (* a value must start *)
  | MArrStart                               (* after '[': a value or ']' *)
  | MObjStart                               (* after '{': a key or '}' *)
  | MKey                                    (* after ',' in an object *)
  | MColon                                  (* after a key *)
  | MAfter                                  (* after an element or member *)
  | MStr (key : bool) (acc : jsstring)      (* in a string; [acc] reversed *)
  | MEsc (key : bool) (acc : jsstring)      (* after a backslash *)
  | MHex (key : bool) (acc : jsstring) (n : nat) (code : N)  (* in \uXXXX *)
  | MNum (st : numstate) (a : numacc)       (* in a number *)
  | MLit (rest : jsstring) (v : json)       (* in true, false or null *)
  | MDone (v : json).                       (* the document is complete *)

Record pstate := { ps_stack : list frame; ps_mode : mode }.

Definition is_ws (c : codeunit) : bool :=
  orb (orb (N.eqb c 32) (N.eqb c 9)) (orb (N.eqb c 10) (N.eqb c 13)).

Definition digit_value (c : codeunit) : option Z :=
  if andb (N.leb 48 c) (N.leb c 57) then Some (Z.of_N c - 48) else None.

Definition hex_value (c : codeunit) : option N :=
  if andb (N.leb 48 c) (N.leb c 57) then Some (c - 48)%N
  else if andb (N.leb 65 c) (N.leb c 70) then Some (c - 55)%N
  else if andb (N.leb 97 c) (N.leb c 102) then Some (c - 87)%N
  else None.

Definition number_value (a : numacc) : number :=
  number_of_decimal (na_neg a) (na_mant a)
    ((if na_eneg a then - na_exp a else na_exp a) - na_frac a).

(** A number may end in these states. *)
Definition num_final (st : numstate) : bool :=
  match st with
  | NZero | NInt | NFrac | NExp => true
  | _ => false
  end.

(** A value is complete: it is the document, or goes into the innermost
    open container. *)
Definition complete (stk : list frame) (v : json) : pstate :=
  match stk with
  | [] => {| ps_stack := []; ps_mode := MDone v |}
  | InArr seen :: up => {| ps_stack := InArr (v :: seen) :: up; ps_mode := MAfter |}
  | InObj seen key :: up =>
      {| ps_stack := InObj ((key, v) :: seen) key :: up; ps_mode := MAfter |}
  end.

(** A key is complete. *)
Definition complete_key (stk : list frame) (k : jsstring) : option pstate :=
  match stk with
  | InObj seen _ :: up => Some {| ps_stack := InObj seen k :: up; ps_mode := MColon |}
  | _ => None
  end.

Definition begin_number (stk : list frame) (st : numstate) (neg : bool) (d : Z) : pstate :=
  {| ps_stack := stk;
     ps_mode := MNum st {| na_neg := neg; na_mant := d; na_frac := 0;
                           na_eneg := false; na_exp := 0 |} |}.

(** The first code unit of a value. *)
Definition start_value (stk : list frame) (c : codeunit) : option pstate :=
  if N.eqb c (ch "{") then Some {| ps_stack := InObj [] [] :: stk; ps_mode := MObjStart |}
  else if N.eqb c (ch "[") then Some {| ps_stack := InArr [] :: stk; ps_mode := MArrStart |}
  else if N.eqb c 34 then Some {| ps_stack := stk; ps_mode := MStr false [] |}
  else if N.eqb c (ch "-") then Some (begin_number stk NMinus true 0)
  else if N.eqb c (ch "0") then Some (begin_number stk NZero false 0)
  else if N.eqb c (ch "t") then Some {| ps_stack := stk; ps_mode := MLit (lit "rue") (JBool true) |}
  else if N.eqb c (ch "f") then Some {| ps_stack := stk; ps_mode := MLit (lit "alse") (JBool false) |}
  else if N.eqb c (ch "n") then Some {| ps_stack := stk; ps_mode := MLit (lit "ull") JNull |}
  else match digit_value c with
       | Some d => Some (begin_number stk NInt false d)
       | None => None
       end.

(** A code unit after a complete value. *)
Definition after_value (st : pstate) (c : codeunit) : option pstate :=
  if is_ws c then Some st
  else match ps_mode st, ps_stack st with
       | MAfter, InArr seen :: up =>
           if N.eqb c (ch ",") then Some {| ps_stack := InArr seen :: up; ps_mode := MValue |}
           else if N.eqb c (ch "]") then Some (complete up (JArr (rev seen)))
           else None
       | MAfter, InObj seen key :: up =>
           if N.eqb c (ch ",") then Some {| ps_stack := InObj seen key :: up; ps_mode := MKey |}
           else if N.eqb c (ch "}") then Some (complete up (JObj (rev seen)))
           else None
       | _, _ => None
       end.

Definition step_number (stk : list frame) (st : numstate) (a : numacc) (c : codeunit)
  : option pstate :=
  let continue st' a' := Some {| ps_stack := stk; ps_mode := MNum st' a' |} in
  let finish := if num_final st then after_value (complete stk (JNum (number_value a))) c
                else None in
  match digit_value c with
  | Some d =>
      let more := {| na_neg := na_neg a; na_mant := na_mant a * 10 + d;
                     na_frac := na_frac a; na_eneg := na_eneg a; na_exp := na_exp a |} in
      let frac := {| na_neg := na_neg a; na_mant := na_mant a * 10 + d;
                     na_frac := na_frac a + 1; na_eneg := na_eneg a; na_exp := na_exp a |} in
      let expo := {| na_neg := na_neg a; na_mant := na_mant a;
                     na_frac := na_frac a; na_eneg := na_eneg a; na_exp := na_exp a * 10 + d |} in
      match st with
      | NMinus => if d =? 0 then continue NZero a else continue NInt more
      | NZero => None
      | NInt => continue NInt more
      | NDot | NFrac => continue NFrac frac
      | NExpE | NExpSign | NExp => continue NExp expo
      end
  | None =>
      if N.eqb c (ch ".") then
        match st with
        | NZero | NInt => continue NDot a
        | _ => None
        end
      else if orb (N.eqb c (ch "e")) (N.eqb c (ch "E")) then
        match st with
        | NZero | NInt | NFrac => continue NExpE a
        | _ => None
        end
      else if orb (N.eqb c (ch "+")) (N.eqb c (ch "-")) then
        match st with
        | NExpE =>
            continue NExpSign {| na_neg := na_neg a; na_mant := na_mant a;
                                 na_frac := na_frac a; na_eneg := N.eqb c (ch "-");
                                 na_exp := na_exp a |}
        | _ => None
        end
      else finish
  end.

Definition step_string (stk : list frame) (key : bool) (acc : jsstring) (c : codeunit)
  : option pstate :=
  if N.eqb c 34 then
    if key then complete_key stk (rev acc) else Some (complete stk (JStr (rev acc)))
  else if N.eqb c 92 then Some {| ps_stack := stk; ps_mode := MEsc key acc |}
  else if N.ltb c 32 then None
  else Some {| ps_stack := stk; ps_mode := MStr key (c :: acc) |}.

Definition step_escape (stk : list frame) (key : bool) (acc : jsstring) (c : codeunit)
  : option pstate :=
  let put (u : codeunit) := Some {| ps_stack := stk; ps_mode := MStr key (u :: acc) |} in
  if N.eqb c 34 then put 34%N
  else if N.eqb c 92 then put 92%N
  else if N.eqb c (ch "/") then put 47%N
  else if N.eqb c (ch "b") then put 8%N
  else if N.eqb c (ch "f") then put 12%N
  else if N.eqb c (ch "n") then put 10%N
  else if N.eqb c (ch "r") then put 13%N
  else if N.eqb c (ch "t") then put 9%N
  else if N.eqb c (ch "u") then Some {| ps_stack := stk; ps_mode := MHex key acc 0 0 |}
  else None.

Definition step (st : pstate) (c : codeunit) : option pstate :=
  let stk := ps_stack st in
  match ps_mode st with
  | MValue => if is_ws c then Some st else start_value stk c
  | MArrStart =>
      if is_ws c then Some st
      else if N.eqb c (ch "]") then
        match stk with
        | InArr _ :: up => Some (complete up (JArr []))
        | _ => None
        end
      else start_value stk c
  | MObjStart =>
      if is_ws c then Some st
      else if N.eqb c (ch "}") then
        match stk with
        | InObj _ _ :: up => Some (complete up (JObj []))
        | _ => None
        end
      else if N.eqb c 34 then Some {| ps_stack := stk; ps_mode := MStr true [] |}
      else None
  | MKey =>
      if is_ws c then Some st
      else if N.eqb c 34 then Some {| ps_stack := stk; ps_mode := MStr true [] |}
      else None
  | MColon =>
      if is_ws c then Some st
      else if N.eqb c (ch ":") then Some {| ps_stack := stk; ps_mode := MValue |}
      else None
  | MAfter | MDone _ => after_value st c
  | MStr key acc => step_string stk key acc c
  | MEsc key acc => step_escape stk key acc c
  | MHex key acc n code =>
      match hex_value c with
      | Some h =>
          let code' := (code * 16 + h)%N in
          match n with
          | 3%nat => Some {| ps_stack := stk; ps_mode := MStr key (code' :: acc) |}
          | _ => Some {| ps_stack := stk; ps_mode := MHex key acc (S n) code' |}
          end
      | None => None
      end
  | MNum ns a => step_number stk ns a c
  | MLit rest v =>
      match rest with
      | [] => None
      | x :: more =>
          if N.eqb c x then
            match more with
            | [] => Some (complete stk v)
            | _ => Some {| ps_stack := stk; ps_mode := MLit more v |}
            end
          else None
      end
  end.

(** The end of the text. *)
Definition at_end (st : pstate) : option json :=
  match ps_mode st, ps_stack st with
  | MDone v, _ => Some v
  | MNum ns a, [] => if num_final ns then Some (JNum (number_value a)) else None
  | _, _ => None
  end.

Fixpoint run (st : pstate) (s : jsstring) : option json :=
  match s with
  | [] => at_end st
  | c :: rest =>
      match step st c with
      | Some st' => run st' rest
      | None => None
      end
  end.

Definition JSON_parse (text : jsstring) : option json :=
  run {| ps_stack := []; ps_mode := MValue |} text.

(** ** src/utils.ts *)

(** [parseGoogleSheetsJSON]: the text between the first '(' and the last
    ')' goes to [JSON.parse]; whatever is thrown inside the [try] is
    replaced by one [Error]. *)
Definition parseGoogleSheetsJSON (text : jsstring) : result json :=
  let jsonString :=
    substring text (indexOf text (ch "(") + 1) (lastIndexOf text (ch ")")) in
  match JSON_parse jsonString with
  | Some rawData => Ok rawData
  | None => Throw (Error (lit "Invalid data format from Google Sheets"))
  end.

(** ** src/types.ts *)

Record KPIData := {
  totalOpportunities : number;
  qualifiedConversations : number;
  convertedClients : number;
  conversionRate : number;
  totalRevenue : number;
  activeClientLoad : number
}.

Module RevenueTrend.
Record t := { month : jsstring; revenue : number }.
End RevenueTrend.

Module WeeklyConversation.
Record t := { week : jsstring; count : number }.
End WeeklyConversation.

Module SourceConversion.
Record t := {
  source : jsstring;
  qualified : number;
  converted : number;
  rate : number;
  revenue : number
}.
End SourceConversion.

(** [new Date()]: milliseconds since the epoch. *)
Definition Date := Z.

(** [DashboardState & { timeFilter: string }], the state of [App]. *)
Record DashboardState := {
  kpis : option KPIData;
  revenueTrend : list RevenueTrend.t;
  weeklyConversations : list WeeklyConversation.t;
  sourceConversions : list SourceConversion.t;
  loading : bool;
  error : option jsstring;
  lastUpdated : option Date;
  timeFilter : jsstring
}.

(** ** src/App.tsx: [fetchData] *)

(** [getNum = (cell) => (cell && typeof cell.v === 'number') ? cell.v : 0] *)
Definition getNum (cell : value) : number :=
  if truthy cell then
    match as_number (get cell (lit "v")) with
    | Some n => n
    | None => zero
    end
  else zero.

(** [getStr = (cell) => (cell && cell.v !== null && cell.v !== undefined)
                         ? String(cell.v) : ''] *)
Definition getStr (cell : value) : result jsstring :=
  if truthy cell then
    match get cell (lit "v") with
    | None | Some JNull => Ok []
    | Some v => ToString v
    end
  else Ok [].

(** [x || 1] on numbers. *)
Definition or_one (x : number) : number := if number_truthy x then x else one.

(** The [kpis] literal, read from [firstRowCells]. *)
Definition kpis_of (firstRowCells : value) : KPIData :=
  {| totalOpportunities := getNum (index firstRowCells 0);
     qualifiedConversations := getNum (index firstRowCells 1);
     convertedClients := getNum (index firstRowCells 2);
     conversionRate := Math_abs (getNum (index firstRowCells 3));
     totalRevenue := getNum (index firstRowCells 4);
     activeClientLoad := or_one (getNum (index firstRowCells 14)) |}.

(** The three arrays the [forEach] callback pushes to. *)
Record Series := {
  s_revenueTrend : list RevenueTrend.t;
  s_weeklyConversations : list WeeklyConversation.t;
  s_sourceConversions : list SourceConversion.t
}.

Definition no_series : Series :=
  {| s_revenueTrend := []; s_weeklyConversations := []; s_sourceConversions := [] |}.

Definition push_revenue (acc : Series) (e : RevenueTrend.t) : Series :=
  {| s_revenueTrend := s_revenueTrend acc ++ [e];
     s_weeklyConversations := s_weeklyConversations acc;
     s_sourceConversions := s_sourceConversions acc |}.

Definition push_weekly (acc : Series) (e : WeeklyConversation.t) : Series :=
  {| s_revenueTrend := s_revenueTrend acc;
     s_weeklyConversations := s_weeklyConversations acc ++ [e];
     s_sourceConversions := s_sourceConversions acc |}.

Definition push_source (acc : Series) (e : SourceConversion.t) : Series :=
  {| s_revenueTrend := s_revenueTrend acc;
     s_weeklyConversations := s_weeklyConversations acc;
     s_sourceConversions := s_sourceConversions acc ++ [e] |}.

(** The callback of [rows.forEach], lines 148-173. *)
Definition each_row (acc : Series) (row : json) : result Series :=
  let cells := get (Some row) (lit "c") in
  if negb (truthy cells) then Ok acc
  else
    month <- getStr (index cells 5) ;;
    let rev := get (index cells 6) (lit "v") in
    let acc1 :=
      match str_truthy month, as_number rev with
      | true, Some r => push_revenue acc {| RevenueTrend.month := month; RevenueTrend.revenue := r |}
      | _, _ => acc
      end in
    week <- getStr (index cells 7) ;;
    let count := get (index cells 8) (lit "v") in
    let acc2 :=
      match str_truthy week, as_number count with
      | true, Some n => push_weekly acc1 {| WeeklyConversation.week := week; WeeklyConversation.count := n |}
      | _, _ => acc1
      end in
    source <- getStr (index cells 9) ;;
    let rate := get (index cells 12) (lit "v") in
    match str_truthy source, as_number rate with
    | true, Some r =>
        let revAttr := getNum (index cells 13) in
        Ok (push_source acc2
              {| SourceConversion.source := source;
                 SourceConversion.qualified := getNum (index cells 10);
                 SourceConversion.converted := getNum (index cells 11);
                 SourceConversion.rate := Math_abs r;
                 SourceConversion.revenue := revAttr |})
    | _, _ => Ok acc2
    end.

Fixpoint each_rows (acc : Series) (rows : list json) : result Series :=
  match rows with
  | [] => Ok acc
  | row :: rest => acc' <- each_row acc row ;; each_rows acc' rest
  end.

(** [rows.forEach(callback)]: only an array has the method. *)
Definition forEach (rows : value) (acc : Series) : result Series :=
  match rows with
  | Some (JArr items) => each_rows acc items
  | _ => Throw (TypeError (lit "rows.forEach is not a function"))
  end.

Definition EmptyDatasetError : exn := Error (lit "No dataset records found").
Definition FormatError : exn := Error (lit "Invalid data format from Google Sheets").
Definition TransportError : exn := Error (lit "Data sync failed").

(** What a pass that succeeds hands to [setState]. *)
Record Normalized := {
  n_kpis : KPIData;
  n_series : Series
}.

(** [rows[0]?.c || []] *)
Definition firstRowCells_of (rows : value) : value :=
  let c := get (index rows 0) (lit "c") in
  if truthy c then c else Some (JArr []).

(** Lines 128-173: from [rawData] to the summary and the three series. *)
Definition normalize (rawData : json) : result Normalized :=
  table <- member (Some rawData) (lit "table") ;;
  let rows := get table (lit "rows") in
  if orb (negb (truthy rows)) (strict_eq_zero (length_of rows)) then Throw EmptyDatasetError
  else
    let firstRowCells := firstRowCells_of rows in
    let kpis := kpis_of firstRowCells in
    series <- forEach rows no_series ;;
    Ok {| n_kpis := kpis; n_series := series |}.

(** What the two awaits of [fetchData] can bring back. *)
Inductive fetched :=
  | Rejected (reason : exn)                       (* [fetch] rejects *)
  | Response (ok : bool) (text : result jsstring). (* [response.ok], [response.text()] *)

(** The [try] block, lines 124-173. *)
Definition fetchData_try (r : fetched) : result Normalized :=
  match r with
  | Rejected reason => Throw reason
  | Response ok text =>
      if negb ok then Throw TransportError
      else
        body <- text ;;
        rawData <- parseGoogleSheetsJSON body ;;
        normalize rawData
  end.

(** Line 122: [setState(prev => ({ ...prev, loading: true, error: null }))]. *)
Definition fetchData_begin (prev : DashboardState) : DashboardState :=
  {| kpis := kpis prev;
     revenueTrend := revenueTrend prev;
     weeklyConversations := weeklyConversations prev;
     sourceConversions := sourceConversions prev;
     loading := true;
     error := None;
     lastUpdated := lastUpdated prev;
     timeFilter := timeFilter prev |}.

(** [err instanceof Error ? err.message : 'Unknown sync error'] *)
Definition catch_message (err : exn) : jsstring :=
  match err with
  | Error message | TypeError message => message
  | NotAnError => lit "Unknown sync error"
  end.

(** Lines 175 and 178: the [setState] that ends a pass. *)
Definition fetchData_end (r : fetched) (now : Date) (prev : DashboardState)
  : DashboardState :=
  match fetchData_try r with
  | Ok n =>
      {| kpis := Some (n_kpis n);
         revenueTrend := s_revenueTrend (n_series n);
         weeklyConversations := s_weeklyConversations (n_series n);
         sourceConversions := s_sourceConversions (n_series n);
         loading := false;
         error := error prev;
         lastUpdated := Some now;
         timeFilter := timeFilter prev |}
  | Throw err =>
      {| kpis := kpis prev;
         revenueTrend := revenueTrend prev;
         weeklyConversations := weeklyConversations prev;
         sourceConversions := sourceConversions prev;
         loading := false;
         error := Some (catch_message err);
         lastUpdated := lastUpdated prev;
         timeFilter := timeFilter prev |}
  end.

(** ** The [App] component around [fetchData]

    What is on screen decides which buttons exist: the retry button on
    the error screen only, the refresh button and the filter buttons on the
    dashboard only (they come after the two early returns).  [pending]
    counts the calls of [fetchData] that are suspended at an [await]. *)

Inductive screen := LoadingScreen | ErrorScreen | Dashboard.

Definition is_null {A : Type} (o : option A) : bool :=
  match o with
  | Some _ => false
  | None => true
  end.

Definition error_truthy (e : option jsstring) : bool :=
  match e with
  | Some message => str_truthy message
  | None => false
  end.

(** The two early returns of the component, lines 210 and 223. *)
Definition render (s : DashboardState) : screen :=
  if andb (loading s) (is_null (kpis s)) then LoadingScreen
  else if andb (error_truthy (error s)) (is_null (kpis s)) then ErrorScreen
  else Dashboard.

Record App := { state : DashboardState; pending : nat }.

(** [useState]'s initial value, lines 110-119. *)
Definition initial : DashboardState :=
  {| kpis := None;
     revenueTrend := [];
     weeklyConversations := [];
     sourceConversions := [];
     loading := true;
     error := None;
     lastUpdated := None;
     timeFilter := lit "All time" |}.

(** A call of [fetchData] runs up to its first [await]. *)
Definition call_fetchData (a : App) : App :=
  {| state := fetchData_begin (state a); pending := S (pending a) |}.

(** The effect of line 182 on mount. *)
Definition mount : App := call_fetchData {| state := initial; pending := 0 |}.

Inductive event :=
  | Tick                                  (* [setInterval(fetchData, REFRESH_INTERVAL)] *)
  | ClickRefresh                          (* the header button, line 277 *)
  | ClickRetry                            (* "Retry Handshake", line 232 *)
  | SelectFilter (p : jsstring)           (* the time filter buttons, line 263 *)
  | Settled (r : fetched) (now : Date).   (* a suspended call resumes and ends *)

Definition handle (a : App) (e : event) : App :=
  match e with
  | Tick => call_fetchData a
  | ClickRefresh =>
      match render (state a) with
      | Dashboard => call_fetchData a
      | _ => a
      end
  | ClickRetry =>
      match render (state a) with
      | ErrorScreen => call_fetchData a
      | _ => a
      end
  | SelectFilter p =>
      match render (state a) with
      | Dashboard =>
          {| state := {| kpis := kpis (state a);
                         revenueTrend := revenueTrend (state a);
                         weeklyConversations := weeklyConversations (state a);
                         sourceConversions := sourceConversions (state a);
                         loading := loading (state a);
                         error := error (state a);
                         lastUpdated := lastUpdated (state a);
                         timeFilter := p |};
             pending := pending a |}
      | _ => a
      end
  | Settled r now =>
      match pending a with
      | O => a
      | S n => {| state := fetchData_end r now (state a); pending := n |}
      end
  end.

Definition handle_all (a : App) (es : list event) : App := fold_left handle es a.

(** The older component kept at the repository root (App.tsx): its refresh
    button carries [disabled={state.loading}] (line 198), and it has no
    error screen. *)
Module Legacy.

Definition handle_click (a : App) : App :=
  if loading (state a) then a else call_fetchData a.

(** The normalizing part of the older [fetchData] (App.tsx lines 94-134):
    the same walk over the rows, with the conversion rate and the win rate
    taken as they come, the client load read at offset 13 without a floor,
    and no attributed revenue. *)
Record SourceConversion := {
  source : jsstring;
  qualified : number;
  converted : number;
  rate : number
}.

Record Series := {
  s_revenueTrend : list RevenueTrend.t;
  s_weeklyConversations : list WeeklyConversation.t;
  s_sourceConversions : list SourceConversion
}.

Record Normalized := {
  n_kpis : KPIData;
  n_series : Series
}.

Definition no_series : Series :=
  {| s_revenueTrend := []; s_weeklyConversations := []; s_sourceConversions := [] |}.

Definition kpis_of (firstRowCells : value) : KPIData :=
  {| totalOpportunities := getNum (index firstRowCells 0);
     qualifiedConversations := getNum (index firstRowCells 1);
     convertedClients := getNum (index firstRowCells 2);
     conversionRate := getNum (index firstRowCells 3);
     totalRevenue := getNum (index firstRowCells 4);
     activeClientLoad := getNum (index firstRowCells 13) |}.

(** The callback of [rows.forEach], lines 115-134. *)
Definition each_row (acc : Series) (row : json) : result Series :=
  let cells := get (Some row) (lit "c") in
  if negb (truthy cells) then Ok acc
  else
    month <- getStr (index cells 5) ;;
    let revValue := get (index cells 6) (lit "v") in
    let acc1 :=
      match str_truthy month, as_number revValue with
      | true, Some r =>
          {| s_revenueTrend :=
               s_revenueTrend acc
               ++ [{| RevenueTrend.month := month; RevenueTrend.revenue := r |}];
             s_weeklyConversations := s_weeklyConversations acc;
             s_sourceConversions := s_sourceConversions acc |}
      | _, _ => acc
      end in
    week <- getStr (index cells 7) ;;
    let count := get (index cells 8) (lit "v") in
    let acc2 :=
      match str_truthy week, as_number count with
      | true, Some n =>
          {| s_revenueTrend := s_revenueTrend acc1;
             s_weeklyConversations :=
               s_weeklyConversations acc1
               ++ [{| WeeklyConversation.week := week; WeeklyConversation.count := n |}];
             s_sourceConversions := s_sourceConversions acc1 |}
      | _, _ => acc1
      end in
    source <- getStr (index cells 9) ;;
    let rate := get (index cells 12) (lit "v") in
    match str_truthy source, as_number rate with
    | true, Some r =>
        Ok {| s_revenueTrend := s_revenueTrend acc2;
              s_weeklyConversations := s_weeklyConversations acc2;
              s_sourceConversions :=
                s_sourceConversions acc2
                ++ [{| source := source;
                       qualified := getNum (index cells 10);
                       converted := getNum (index cells 11);
                       rate := r |}] |}
    | _, _ => Ok acc2
    end.

Fixpoint each_rows (acc : Series) (rows : list json) : result Series :=
  match rows with
  | [] => Ok acc
  | row :: rest => acc' <- each_row acc row ;; each_rows acc' rest
  end.

Definition forEach (rows : value) (acc : Series) : result Series :=
  match rows with
  | Some (JArr items) => each_rows acc items
  | _ => Throw (TypeError (lit "rows.forEach is not a function"))
  end.

Definition normalize (rawData : json) : result Normalized :=
  table <- member (Some rawData) (lit "table") ;;
  let rows := get table (lit "rows") in
  if orb (negb (truthy rows)) (strict_eq_zero (length_of rows))
  then Throw (Error (lit "No data found."))
  else
    let firstRowCells := firstRowCells_of rows in
    let kpis := kpis_of firstRowCells in
    series <- forEach rows no_series ;;
    Ok {| n_kpis := kpis; n_series := series |}.

End Legacy.

(** ** src/utils.ts: [formatPercent] *)

(** [x * y]. *)
Definition number_mul (x y : number) : number := SFmul prec emax x y.

(** [Math.round]: the nearest integer, a tie going up; an integer, an
    infinity and NaN are returned as they are, and what rounds to zero
    keeps the sign of the argument. *)
Definition Math_round (x : number) : number :=
  match x with
  | S754_finite s m e =>
      if 0 <=? e then x
      else
        let unit := 2 ^ (- e) in
        let twice := if s then - (2 * Zpos m) else 2 * Zpos m in
        let z := (twice + unit) / (2 * unit) in
        if z =? 0 then S754_zero s else number_of_Z z
  | _ => x
  end.

(** [formatPercent = (value) => `${Math.round(value * 100)}%`] *)
Definition formatPercent (value : number) : jsstring :=
  Number_toString (Math_round (number_mul value (number_of_Z 100))) ++ lit "%".

(** ** src/App.tsx: [topSource] *)

(** [x - y]. *)
Definition number_sub (x y : number) : number := SFsub prec emax x y.

(** [v > 0]. *)
Definition positive_number (v : number) : bool := number_ltb zero v.

(** [array.sort(compare)]: a stable sort; [compare(a, b) > 0] puts [b]
    before [a], anything else (negative, zero, NaN) leaves [a] before [b].
    Written as an insertion from the right, which keeps equal elements in
    their order. *)
Fixpoint sort_insert {A : Type} (compare : A -> A -> number) (a : A) (sorted : list A)
  : list A :=
  match sorted with
  | [] => [a]
  | b :: rest =>
      if positive_number (compare a b) then b :: sort_insert compare a rest
      else a :: sorted
  end.

Definition sort {A : Type} (compare : A -> A -> number) (array : list A) : list A :=
  fold_right (sort_insert compare) [] array.

(** [(a, b) => b.rate - a.rate] *)
Definition by_rate_descending (a b : SourceConversion.t) : number :=
  number_sub (SourceConversion.rate b) (SourceConversion.rate a).

(** [state.sourceConversions.length
      ? [...state.sourceConversions].sort((a, b) => b.rate - a.rate)[0] : null] *)
Definition topSource (s : DashboardState) : option SourceConversion.t :=
  match sourceConversions s with
  | [] => None
  | entries => nth_error (sort by_rate_descending entries) 0
  end.

(** ** Vocabulary of the properties *)

(** The only place where the automaton of [JSON.parse] waits for a fixed
    code unit is the tail of a literal; none of them is a parenthesis. *)
Definition paren_free (st : pstate) : Prop :=
  match ps_mode st with
  | MLit rest _ => ~ In (ch "(") rest
  | _ => True
  end.

(** What [parseGoogleSheetsJSON] makes of the outcome of [JSON.parse]. *)
Definition parsed_or_FormatError (o : option json) : result json :=
  match o with
  | Some rawData => Ok rawData
  | None => Throw FormatError
  end.

(** A text has a matching pair when some '(' comes before some ')'. *)
Definition matching_pair (text : jsstring) : Prop :=
  exists pre mid post, text = pre ++ ch "(" :: mid ++ ch ")" :: post.

(** Builders for payloads of the documented shape
    [{ table: { rows: [ { c: [ { v: ... }, ... ] }, ... ] } }]. *)
Definition cell (v : json) : json := JObj [(lit "v", v)].
Definition row (cells : list json) : json := JObj [(lit "c", JArr cells)].
Definition table_of (rows : list json) : json := JObj [(lit "rows", JArr rows)].
Definition rawData_of (table : json) : json := JObj [(lit "table", table)].

Definition num (z : Z) : json := JNum (number_of_Z z).

(** [rawData.table?.rows] and the cells of a row, [row?.c]. *)
Definition rows_of (rawData : json) : value :=
  get (get (Some rawData) (lit "table")) (lit "rows").

Definition cells_of (r : json) : value := get (Some r) (lit "c").

(** The hand-built table of the specification's round-trip example, and
    the same row with the label and the amount where the code reads them
    (offsets 5 and 6). *)
Definition roundtrip_table : json :=
  table_of [row [cell (num 10); cell (num 5); cell (num 2);
                 cell (JNum (number_of_decimal false 4 (-1))); cell (num 1000);
                 JNull; cell (JStr (lit "Jan")); cell (num 1000)]].

Definition aligned_table : json :=
  table_of [row [cell (num 10); cell (num 5); cell (num 2);
                 cell (JNum (number_of_decimal false 4 (-1))); cell (num 1000);
                 cell (JStr (lit "Jan")); cell (num 1000)]].

Definition roundtrip_kpis : KPIData :=
  {| totalOpportunities := number_of_Z 10;
     qualifiedConversations := number_of_Z 5;
     convertedClients := number_of_Z 2;
     conversionRate := number_of_decimal false 4 (-1);
     totalRevenue := number_of_Z 1000;
     activeClientLoad := number_of_Z 1 |}.

Definition jan_1000 : RevenueTrend.t :=
  {| RevenueTrend.month := lit "Jan"; RevenueTrend.revenue := number_of_Z 1000 |}.

(** The strict coercion in the specification's words: the cell's raw value
    when its type is number, 0 otherwise. *)
Definition strict_number (c : value) : number :=
  match c with
  | Some (JObj members) =>
      match own members (lit "v") with
      | Some (JNum n) => n
      | _ => zero
      end
  | _ => zero
  end.

(** [String(v)] succeeds on [v]: neither [v] nor an element reached
    through its arrays is an object with an own member [toString]. *)
Fixpoint printable (v : json) : bool :=
  match v with
  | JArr items => forallb printable items
  | JObj members => is_null (own members (lit "toString"))
  | _ => true
  end.

(** The three label cells of a row (offsets 5, 7 and 9) hold nothing that
    [String()] rejects. *)
Definition label_printable (r : json) (k : nat) : bool :=
  match get (index (cells_of r) k) (lit "v") with
  | Some v => printable v
  | None => true
  end.

Definition labels_printable (r : json) : bool :=
  andb (label_printable r 5) (andb (label_printable r 7) (label_printable r 9)).

(** No number of the document is NaN; JSON has no notation for it. *)
Fixpoint no_nan (v : json) : bool :=
  match v with
  | JNum S754_nan => false
  | JArr items => forallb no_nan items
  | JObj members => forallb (fun kv => no_nan (snd kv)) members
  | _ => true
  end.

Definition no_nan_value (v : value) : bool :=
  match v with
  | Some j => no_nan j
  | None => true
  end.

(** A one-row table whose first row has [v] at offset 14 and nothing
    before it. *)
Definition load_table (v : json) : json :=
  table_of [row (List.repeat JNull 14 ++ [cell v])].

Definition load_result (v : json) : Normalized :=
  {| n_kpis := kpis_of (firstRowCells_of (rows_of (rawData_of (load_table v))));
     n_series := no_series |}.

(** What one row contributes to each series, given its labels. *)
Definition revenue_entry (month : jsstring) (cells : value) : list RevenueTrend.t :=
  match str_truthy month, as_number (get (index cells 6) (lit "v")) with
  | true, Some r => [{| RevenueTrend.month := month; RevenueTrend.revenue := r |}]
  | _, _ => []
  end.

Definition weekly_entry (week : jsstring) (cells : value) : list WeeklyConversation.t :=
  match str_truthy week, as_number (get (index cells 8) (lit "v")) with
  | true, Some n => [{| WeeklyConversation.week := week; WeeklyConversation.count := n |}]
  | _, _ => []
  end.

Definition source_entry (source : jsstring) (cells : value) : list SourceConversion.t :=
  match str_truthy source, as_number (get (index cells 12) (lit "v")) with
  | true, Some r =>
      [{| SourceConversion.source := source;
          SourceConversion.qualified := getNum (index cells 10);
          SourceConversion.converted := getNum (index cells 11);
          SourceConversion.rate := Math_abs r;
          SourceConversion.revenue := getNum (index cells 13) |}]
  | _, _ => []
  end.


(** [0 <= x]. *)
Definition nonneg (x : number) : Prop := number_leb zero x = true.

(** Rows whose month label, or week label, is the empty string while the
    numeric column next to it holds a number; and a row labelled by numbers
    and a boolean. *)
Definition blank_month_row : json :=
  row [JNull; JNull; JNull; JNull; JNull; cell (JStr []); cell (num 5);
       cell (JStr (lit "W1")); cell (num 6)].

Definition blank_week_row : json :=
  row [JNull; JNull; JNull; JNull; JNull; cell (JStr (lit "Jan")); cell (num 5);
       cell (JStr []); cell (num 6)].

Definition numeric_label_row : json :=
  row [JNull; JNull; JNull; JNull; JNull; cell (num 2024); cell (num 5);
       cell (JBool true); cell (num 6); cell (num 7); JNull; JNull; cell (num (-3))].

Definition only_week : Series :=
  {| s_revenueTrend := [];
     s_weeklyConversations :=
       [{| WeeklyConversation.week := lit "W1"; WeeklyConversation.count := number_of_Z 6 |}];
     s_sourceConversions := [] |}.

Definition only_month : Series :=
  {| s_revenueTrend :=
       [{| RevenueTrend.month := lit "Jan"; RevenueTrend.revenue := number_of_Z 5 |}];
     s_weeklyConversations := [];
     s_sourceConversions := [] |}.


(** A one-row payload with a negative conversion rate and a negative win
    rate. *)
Definition negative_rates : json :=
  rawData_of (table_of
    [row [JNull; JNull; JNull; cell (JNum (number_of_decimal true 4 (-1)));
          JNull; JNull; JNull; JNull; JNull;
          cell (JStr (lit "LinkedIn")); cell (num 8); cell (num 2);
          cell (JNum (number_of_decimal true 25 (-2)))]]).

(** The failure was raised by the pipeline's own code, not handed in by the
    runtime as the rejection of [fetch] or of [response.text()]. *)
Definition raised_by_pipeline (r : fetched) : Prop :=
  match r with
  | Rejected _ => False
  | Response false _ => True
  | Response true (Ok _) => True
  | Response true (Throw _) => False
  end.

(** The text of the round-trip payload, and the component after a first
    pass that fetched it. *)
Definition roundtrip_text : jsstring :=
  json_lit "google.visualization.Query.setResponse({'table':{'rows':[{'c':[{'v':10},{'v':5},{'v':2},{'v':0.4},{'v':1000},null,{'v':'Jan'},{'v':1000}]}]}});".

Definition loaded : App :=
  handle mount (Settled (Response true (Ok roundtrip_text)) 1700000000000).

(** A first row with a numeric-looking string, a null cell and a number,
    and a row with a source entry whose qualified count is kept as text. *)
Definition loose_first_row : json :=
  row [cell (JStr (lit "10")); JNull; cell (num 2)].

Definition loose_source_row : json :=
  row [JNull; JNull; JNull; JNull; JNull; JNull; JNull; JNull; JNull;
       cell (JStr (lit "LinkedIn")); cell (JStr (lit "8")); cell (num 2); cell (num 1)].

Definition loose_table : json := table_of [loose_first_row; loose_source_row].

(** A one-row table whose month label is an object with an own member
    [toString]. *)
Definition object_label_row : json :=
  row [JNull; JNull; JNull; JNull; JNull;
       cell (JObj [(lit "toString", num 1)]); cell (num 5)].

Definition object_label_table : json := table_of [object_label_row].

(** The numeric fields of a source entry are the strict coercions of the
    cells of the row [r]. *)
Definition source_counts_strict (r : json) (e : SourceConversion.t) : Prop :=
  SourceConversion.qualified e = strict_number (index (cells_of r) 10) /\
  SourceConversion.converted e = strict_number (index (cells_of r) 11) /\
  SourceConversion.revenue e = strict_number (index (cells_of r) 13).

(** What [fetch] or [response.text()] rejected with, when the pass ended
    that way. *)
Definition rejection (r : fetched) : option exn :=
  match r with
  | Rejected reason => Some reason
  | Response true (Throw reason) => Some reason
  | Response _ _ => None
  end.

(** No value the automaton of [JSON.parse] has built so far holds NaN. *)
Definition frame_no_nan (f : frame) : bool :=
  match f with
  | InArr seen => forallb no_nan seen
  | InObj seen _ => forallb (fun kv => no_nan (snd kv)) seen
  end.

Definition mode_no_nan (m : mode) : bool :=
  match m with
  | MLit _ v | MDone v => no_nan v
  | _ => true
  end.

Definition state_no_nan (st : pstate) : Prop :=
  forallb frame_no_nan (ps_stack st) = true /\ mode_no_nan (ps_mode st) = true.

(** ** Vocabulary of the further properties *)

(** The label of a row at an offset, as [getStr] reads it. *)
Definition label_of (r : json) (k : nat) : jsstring :=
  match getStr (index (cells_of r) k) with
  | Ok s => s
  | Throw _ => []
  end.

(** What a row adds to each of the three series. *)
Definition row_revenue (r : json) : list RevenueTrend.t :=
  revenue_entry (label_of r 5) (cells_of r).

Definition row_weekly (r : json) : list WeeklyConversation.t :=
  weekly_entry (label_of r 7) (cells_of r).

Definition row_source (r : json) : list SourceConversion.t :=
  source_entry (label_of r 9) (cells_of r).

(** Two rows naming the same source, around a row naming another. *)
Definition source_row (name : string) (r : Z) : json :=
  row [JNull; JNull; JNull; JNull; JNull; JNull; JNull; JNull; JNull;
       cell (JStr (lit name)); cell (num 4); cell (num 2); cell (num r)].

Definition repeated_sources : json :=
  rawData_of (table_of [source_row "LinkedIn" 3; source_row "Organic" 1;
                        source_row "LinkedIn" 2]).

(** A row that holds its amounts as text. *)
Definition textual_row : json :=
  row [JNull; JNull; JNull; JNull; JNull;
       cell (JStr (lit "Jan")); cell (JStr (lit "1000"));
       cell (JStr (lit "W1")); cell (JStr (lit "6"));
       cell (JStr (lit "LinkedIn")); cell (num 4); cell (num 2); cell (JStr (lit "0.5"))].

(** The data a state shows: the summary, the three series and the time of
    the update. *)
Record Data := {
  d_kpis : option KPIData;
  d_revenueTrend : list RevenueTrend.t;
  d_weeklyConversations : list WeeklyConversation.t;
  d_sourceConversions : list SourceConversion.t;
  d_lastUpdated : option Date
}.

Definition data_of (s : DashboardState) : Data :=
  {| d_kpis := kpis s;
     d_revenueTrend := revenueTrend s;
     d_weeklyConversations := weeklyConversations s;
     d_sourceConversions := sourceConversions s;
     d_lastUpdated := lastUpdated s |}.

(** A pass that settled with success: what it normalized and when. *)
Definition pass : Type := Normalized * Date.

(** The data of one pass, and the data before any pass. *)
Definition data_of_pass (p : pass) : Data :=
  {| d_kpis := Some (n_kpis (fst p));
     d_revenueTrend := s_revenueTrend (n_series (fst p));
     d_weeklyConversations := s_weeklyConversations (n_series (fst p));
     d_sourceConversions := s_sourceConversions (n_series (fst p));
     d_lastUpdated := Some (snd p) |}.

Definition data_of_latest (latest : option pass) : Data :=
  match latest with
  | Some p => data_of_pass p
  | None => data_of initial
  end.

(** The pass an event completes: a suspended call of [fetchData] resumes
    with a response that parses and normalizes. *)
Definition pass_of (a : App) (e : event) : option pass :=
  match e with
  | Settled r now =>
      match pending a, fetchData_try r with
      | S _, Ok n => Some (n, now)
      | _, _ => None
      end
  | _ => None
  end.

(** The latest pass completed along a run of events, after [seen]. *)
Fixpoint latest_pass (a : App) (es : list event) (seen : option pass) : option pass :=
  match es with
  | [] => seen
  | e :: rest =>
      latest_pass (handle a e) rest
        (match pass_of a e with
         | Some p => Some p
         | None => seen
         end)
  end.

(** An event that is a call or a continuation of [fetchData]. *)
Definition fetch_event (e : event) : bool :=
  match e with
  | SelectFilter _ => false
  | _ => true
  end.

(** The older normalizer's entry for a current one: the attributed revenue
    dropped. *)
Definition without_revenue (e : SourceConversion.t) : Legacy.SourceConversion :=
  {| Legacy.source := SourceConversion.source e;
     Legacy.qualified := SourceConversion.qualified e;
     Legacy.converted := SourceConversion.converted e;
     Legacy.rate := SourceConversion.rate e |}.

Definition with_abs_rate (e : Legacy.SourceConversion) : Legacy.SourceConversion :=
  {| Legacy.source := Legacy.source e;
     Legacy.qualified := Legacy.qualified e;
     Legacy.converted := Legacy.converted e;
     Legacy.rate := Math_abs (Legacy.rate e) |}.

(** How the two normalizers' results correspond. *)
Definition same_up_to_sign (old : Legacy.Normalized) (new : Normalized) : Prop :=
  totalOpportunities (n_kpis new) = totalOpportunities (Legacy.n_kpis old) /\
  qualifiedConversations (n_kpis new) = qualifiedConversations (Legacy.n_kpis old) /\
  convertedClients (n_kpis new) = convertedClients (Legacy.n_kpis old) /\
  conversionRate (n_kpis new) = Math_abs (conversionRate (Legacy.n_kpis old)) /\
  totalRevenue (n_kpis new) = totalRevenue (Legacy.n_kpis old) /\
  s_revenueTrend (n_series new) = Legacy.s_revenueTrend (Legacy.n_series old) /\
  s_weeklyConversations (n_series new) = Legacy.s_weeklyConversations (Legacy.n_series old) /\
  List.map without_revenue (s_sourceConversions (n_series new))
  = List.map with_abs_rate (Legacy.s_sourceConversions (Legacy.n_series old)).

Definition series_same_up_to_sign (old : Legacy.Series) (new : Series) : Prop :=
  s_revenueTrend new = Legacy.s_revenueTrend old /\
  s_weeklyConversations new = Legacy.s_weeklyConversations old /\
  List.map without_revenue (s_sourceConversions new)
  = List.map with_abs_rate (Legacy.s_sourceConversions old).

(** The whole percentages from 0 to [n]. *)
Definition percentages (n : nat) : list Z := List.map Z.of_nat (List.seq 0 (S n)).

(** A finite positive number at or above 1, and its text with the search
    for the magnitude started at 0 instead of far below. *)
Definition at_least_one (m : positive) (e : Z) : bool :=
  2 ^ Z.max (- e) 0 <=? Zpos m * 2 ^ Z.max e 0.

Definition toString_from_one (m : positive) (e : Z) : jsstring :=
  format_shortest (shortest_from 16 m e (magnitude 370 m e 0) 1).

(** [Math.round(value * 100)] is zero or at least 1, and the text is the
    digits of [k] and the percent sign. *)
Definition percent_text_ok (k : Z) : bool :=
  match Math_round (number_mul (number_of_decimal false k (-2)) (number_of_Z 100)) with
  | S754_zero _ => str_eqb (lit "0%") (digits k ++ lit "%")
  | S754_finite false m e =>
      andb (at_least_one m e)
           (str_eqb (toString_from_one m e ++ lit "%") (digits k ++ lit "%"))
  | _ => false
  end.

(** A binary64 value other than NaN. *)
Definition real_number (x : number) : bool :=
  match x with
  | S754_nan => false
  | _ => valid_binary prec emax x
  end.

(** The place of a number on the line, in units of the smallest positive
    binary64 value; the infinities beyond every finite value. *)
Definition place (x : number) : Z :=
  match x with
  | S754_zero _ | S754_nan => 0
  | S754_infinity s => if s then - 2 ^ 3000 else 2 ^ 3000
  | S754_finite s m e => (if s then - Zpos m else Zpos m) * 2 ^ (e - emin prec emax)
  end.

Definition entry_with_rate (name : string) (r : Z) : SourceConversion.t :=
  {| SourceConversion.source := lit name;
     SourceConversion.qualified := number_of_Z 4;
     SourceConversion.converted := number_of_Z 2;
     SourceConversion.rate := number_of_Z r;
     SourceConversion.revenue := zero |}.

Definition state_with_sources (entries : list SourceConversion.t) : DashboardState :=
  {| kpis := None;
     revenueTrend := [];
     weeklyConversations := [];
     sourceConversions := entries;
     loading := false;
     error := None;
     lastUpdated := None;
     timeFilter := lit "All time" |}.

Definition rate_place (entry : SourceConversion.t) : Z :=
  place (SourceConversion.rate entry).

Definition real_rates (entries : list SourceConversion.t) : bool :=
  forallb (fun entry => real_number (SourceConversion.rate entry)) entries.

(** * Properties *)

(** ** Binary64 rounding never loses a number at or above the normal range *)

Lemma digits2_size (p : positive) : digits2_pos p = Pos.size p.
Proof. induction p; simpl; congruence. Qed.

Lemma Zdigits2_bounds (m : Z) :
  0 < m -> 2 ^ (Zdigits2 m - 1) <= m < 2 ^ Zdigits2 m.
Proof.
  destruct m as [|p|p]; try lia. intros _. simpl Zdigits2. rewrite digits2_size.
  split.
  - pose proof (Pos.size_le p) as H.
    assert (Z.pos (2 ^ Pos.size p) <= Z.pos p~0) as H' by exact H.
    rewrite Pos2Z.inj_pow in H'.
    replace (Z.pos (Pos.size p)) with (Z.pos (Pos.size p) - 1 + 1) in H' by lia.
    rewrite Z.pow_add_r in H' by lia. lia.
  - pose proof (Pos.size_gt p) as H.
    assert (Z.pos p < Z.pos (2 ^ Pos.size p)) as H' by exact H.
    rewrite Pos2Z.inj_pow in H'. exact H'.
Qed.

Lemma Zdigits2_lower (m k : Z) : 0 < m -> 0 <= k -> 2 ^ k <= m -> k < Zdigits2 m.
Proof.
  intros Hm Hk H. destruct (Zdigits2_bounds m Hm) as [_ Hup].
  destruct (Z.lt_ge_cases k (Zdigits2 m)) as [|Hge]; [assumption|].
  pose proof (Z.pow_le_mono_r 2 (Zdigits2 m) k ltac:(lia) Hge). lia.
Qed.

Lemma shr_1_m (mrs : shr_record) : 0 <= shr_m mrs -> shr_m (shr_1 mrs) = shr_m mrs / 2.
Proof.
  destruct mrs as [m r s]. simpl. intros H.
  destruct m as [|[p|p|]|p]; try lia; simpl shr_m.
  - reflexivity.
  - rewrite Pos2Z.inj_xI. apply Z.div_unique with 1; lia.
  - rewrite Pos2Z.inj_xO. apply Z.div_unique with 0; lia.
  - reflexivity.
Qed.

Lemma pow2_xO (n : positive) : 2 ^ Z.pos n~0 = 2 ^ Z.pos n * 2 ^ Z.pos n.
Proof. replace (Z.pos n~0) with (Z.pos n + Z.pos n) by lia. apply Z.pow_add_r; lia. Qed.

Lemma pow2_xI (n : positive) : 2 ^ Z.pos n~1 = 2 * (2 ^ Z.pos n * 2 ^ Z.pos n).
Proof.
  replace (Z.pos n~1) with (1 + (Z.pos n + Z.pos n)) by lia.
  rewrite !Z.pow_add_r by lia. reflexivity.
Qed.

Lemma iter_shr_m (n : positive) :
  forall mrs, 0 <= shr_m mrs -> shr_m (iter_pos shr_1 n mrs) = shr_m mrs / 2 ^ Zpos n.
Proof.
  induction n as [n IH|n IH|]; intros mrs H; cbn [iter_pos].
  - assert (0 <= shr_m (shr_1 mrs)) as H1 by (rewrite shr_1_m by lia; apply Z.div_pos; lia).
    assert (0 <= shr_m (iter_pos shr_1 n (shr_1 mrs))) as H2
        by (rewrite IH by lia; apply Z.div_pos; lia).
    rewrite IH, IH, shr_1_m by lia.
    rewrite !Z.div_div by lia. rewrite pow2_xI. reflexivity.
  - assert (0 <= shr_m (iter_pos shr_1 n mrs)) as H2
        by (rewrite IH by lia; apply Z.div_pos; lia).
    rewrite IH, IH by lia. rewrite Z.div_div by lia. rewrite pow2_xO. reflexivity.
  - rewrite shr_1_m by lia. reflexivity.
Qed.

(** One alignment step of the rounding: a positive mantissa above the
    subnormal range stays positive, and stays above that range. *)
Lemma shr_fexp_positive (m e : Z) (l : location) :
  0 < m -> emin prec emax <= Zdigits2 m + e - prec ->
  let '(mrs, e') := shr_fexp prec emax m e l in
  0 < shr_m mrs /\ emin prec emax <= Zdigits2 (shr_m mrs) + e' - prec /\
  Zdigits2 (shr_m mrs) + e' <= Z.max (Zdigits2 m + e) (prec + e').
Proof.
  intros Hm He. unfold shr_fexp, shr, fexp.
  destruct (Zdigits2_bounds m Hm) as [Hlo Hhi].
  assert (0 < Zdigits2 m) as Hd by (destruct m; simpl; lia).
  rewrite Z.max_l by lia.
  assert (shr_m (shr_record_of_loc m l) = m) as Em by (destruct l as [|[]]; reflexivity).
  destruct (Zdigits2 m + e - prec - e) as [|n|n] eqn:En.
  - rewrite Em. lia.
  - rewrite iter_shr_m by lia. rewrite Em.
    assert (Z.pos n = Zdigits2 m - prec) as En' by lia.
    assert (2 ^ (Zdigits2 m - 1) = 2 ^ (prec - 1) * 2 ^ Z.pos n) as Epow.
    { rewrite <- Z.pow_add_r by (unfold prec; lia). f_equal. lia. }
    assert (2 ^ (prec - 1) <= m / 2 ^ Z.pos n) as Hq.
    { apply Z.div_le_lower_bound; [lia|]. rewrite Z.mul_comm. lia. }
    assert (0 < 2 ^ (prec - 1)) by (apply Z.pow_pos_nonneg; unfold prec; lia).
    assert (prec - 1 < Zdigits2 (m / 2 ^ Z.pos n))
      by (apply Zdigits2_lower; unfold prec in *; lia).
    assert (m / 2 ^ Z.pos n < 2 ^ prec) as Hup.
    { apply Z.div_lt_upper_bound; [lia|].
      rewrite <- Z.pow_add_r by (unfold prec; lia).
      replace (Z.pos n + prec) with (Zdigits2 m) by lia. exact Hhi. }
    assert (Zdigits2 (m / 2 ^ Z.pos n) <= prec).
    { destruct (Zdigits2_bounds (m / 2 ^ Z.pos n) ltac:(lia)) as [Hl' _].
      destruct (Z.le_gt_cases (Zdigits2 (m / 2 ^ Z.pos n)) prec) as [|Hgt]; [assumption|].
      pose proof (Z.pow_le_mono_r 2 prec (Zdigits2 (m / 2 ^ Z.pos n) - 1) ltac:(lia) ltac:(lia)).
      lia. }
    lia.
  - rewrite Em. lia.
Qed.

Lemma Zdigits2_mono (a b : Z) : 0 < a -> a <= b -> Zdigits2 a <= Zdigits2 b.
Proof.
  intros Ha Hab. destruct (Zdigits2_bounds a Ha) as [Hlo _].
  assert (0 < Zdigits2 a) by (destruct a; simpl; lia).
  pose proof (Zdigits2_lower b (Zdigits2 a - 1) ltac:(lia) ltac:(lia) ltac:(lia)). lia.
Qed.

Lemma round_nearest_even_bounds (m : Z) (l : location) :
  m <= round_nearest_even m l <= m + 1.
Proof. destruct l as [|[]]; simpl; try lia. destruct (Z.even m); lia. Qed.

Lemma shr_fexp_nonneg (m e : Z) (l : location) :
  0 <= m -> 0 <= shr_m (fst (shr_fexp prec emax m e l)).
Proof.
  intros Hm. unfold shr_fexp, shr.
  assert (shr_m (shr_record_of_loc m l) = m) as Em by (destruct l as [|[]]; reflexivity).
  destruct (fexp prec emax (Zdigits2 m + e) - e) as [|n|n]; cbn [fst]; rewrite ?Em; try lia.
  rewrite iter_shr_m by lia. rewrite Em. apply Z.div_pos; lia.
Qed.

(** Rounding a non-negative mantissa never yields NaN. *)
Lemma binary_round_aux_not_nan (sx : bool) (mx ex : Z) (lx : location) :
  0 <= mx -> binary_round_aux prec emax sx mx ex lx <> NaN.
Proof.
  intros Hm. unfold binary_round_aux.
  pose proof (shr_fexp_nonneg mx ex lx Hm) as H1.
  destruct (shr_fexp prec emax mx ex lx) as [mrs' e']. cbn [fst] in H1.
  pose proof (round_nearest_even_bounds (shr_m mrs') (loc_of_shr_record mrs')) as Hr.
  pose proof (shr_fexp_nonneg (round_nearest_even (shr_m mrs') (loc_of_shr_record mrs'))
                e' loc_Exact ltac:(lia)) as H2.
  destruct (shr_fexp prec emax _ e' loc_Exact) as [mrs'' e'']. cbn [fst] in H2.
  destruct (shr_m mrs''); try discriminate; [|lia].
  destruct (Z.leb e'' (emax - prec)); discriminate.
Qed.

(** Rounding a positive mantissa at or above the normal range yields a
    finite number or an infinity, never a zero. *)
Lemma binary_round_aux_not_zero (sx : bool) (mx ex : Z) (lx : location) :
  0 < mx -> emin prec emax <= Zdigits2 mx + ex - prec ->
  number_truthy (binary_round_aux prec emax sx mx ex lx) = true.
Proof.
  intros Hm He. unfold binary_round_aux.
  pose proof (shr_fexp_positive mx ex lx Hm He) as H1.
  destruct (shr_fexp prec emax mx ex lx) as [mrs' e']. destruct H1 as (H1 & H1e & _).
  pose proof (round_nearest_even_bounds (shr_m mrs') (loc_of_shr_record mrs')) as Hr.
  set (m2 := round_nearest_even (shr_m mrs') (loc_of_shr_record mrs')) in *.
  pose proof (Zdigits2_mono (shr_m mrs') m2 H1 ltac:(lia)) as Hd.
  pose proof (shr_fexp_positive m2 e' loc_Exact ltac:(lia) ltac:(lia)) as H2.
  destruct (shr_fexp prec emax m2 e' loc_Exact) as [mrs'' e'']. destruct H2 as (H2 & _).
  destruct (shr_m mrs''); try lia.
  destruct (Z.leb e'' (emax - prec)); reflexivity.
Qed.

Lemma digits2_iter_xO (m d : positive) :
  digits2_pos (Pos.iter xO m d) = (digits2_pos m + d)%positive.
Proof.
  induction d as [|d IH] using Pos.peano_ind.
  - simpl. lia.
  - rewrite Pos.iter_succ. simpl. rewrite IH. lia.
Qed.

(** A positive integer is never the number zero, so [x.length === 0]
    only holds of an empty array. *)
Lemma number_of_Z_positive (p : positive) : number_truthy (number_of_Z (Zpos p)) = true.
Proof.
  unfold number_of_Z, binary_normalize, binary_round, shl_align.
  destruct (fexp prec emax (Z.pos (digits2_pos p) + 0) - 0) as [|d|d] eqn:Ed.
  - apply binary_round_aux_not_zero; [lia|]. unfold emin, prec, emax. simpl Zdigits2. lia.
  - apply binary_round_aux_not_zero; [lia|]. unfold emin, prec, emax. simpl Zdigits2. lia.
  - apply binary_round_aux_not_zero; [lia|]. simpl Zdigits2. rewrite digits2_iter_xO.
    unfold fexp, emin, prec, emax in *. lia.
Qed.

Lemma length_not_zero {A : Type} (x : A) (l : list A) :
  number_eqb (number_of_Z (Z.of_nat (List.length (x :: l)))) zero = false.
Proof.
  cbn [List.length]. rewrite Nat2Z.inj_succ.
  destruct (Z.succ (Z.of_nat (List.length l))) as [|p|p] eqn:E; try lia.
  pose proof (number_of_Z_positive p) as H.
  destruct (number_of_Z (Z.pos p)) as [s|s| |s m e]; try discriminate H; try reflexivity;
    destruct s; reflexivity.
Qed.

(** The value of a decimal literal is never NaN. *)
Lemma number_of_decimal_not_nan (neg : bool) (m e : Z) : number_of_decimal neg m e <> NaN.
Proof.
  unfold number_of_decimal. destruct m as [|p|p]; try discriminate.
  destruct (Z.leb_spec 0 e) as [He|He].
  - unfold binary_normalize.
    destruct (_ * _) as [|q|q]; try discriminate;
      unfold binary_round; destruct (shl_align _ _ _) as [mz ez];
      apply binary_round_aux_not_nan; lia.
  - unfold SFdiv_core_binary.
    set (m' := match _ - _ with Z.pos _ => _ | Z0 => _ | Z.neg _ => 0 end).
    assert (0 <= m') as Hm'.
    { unfold m'. destruct (_ - _); try lia. apply Z.shiftl_nonneg. lia. }
    assert (0 < 10 ^ (- e)) as Hden by (apply Z.pow_pos_nonneg; lia).
    pose proof (Z.div_pos m' (10 ^ (- e)) Hm' Hden) as Hq.
    unfold Z.div in Hq.
    destruct (Z.div_eucl m' (10 ^ (- e))) as [q r]. cbn [fst] in Hq.
    apply binary_round_aux_not_nan. exact Hq.
Qed.

(** ** Strings *)

Section Occurrences.

Variable c : codeunit.

Lemma indexOf_lower (s : jsstring) : -1 <= indexOf s c.
Proof.
  induction s as [|x r IH]; simpl; [lia|].
  destruct (N.eqb x c); [lia|].
  destruct (indexOf r c); lia.
Qed.

Lemma indexOf_absent (s : jsstring) : ~ In c s -> indexOf s c = -1.
Proof.
  induction s as [|x r IH]; simpl; intros H; [reflexivity|].
  destruct (N.eqb_spec x c) as [->|Hx]; [tauto|].
  rewrite IH by tauto. reflexivity.
Qed.

Lemma indexOf_first (pre rest : jsstring) :
  ~ In c pre -> indexOf (pre ++ c :: rest) c = Z.of_nat (List.length pre).
Proof.
  induction pre as [|x r IH]; simpl; intros H.
  - rewrite N.eqb_refl. reflexivity.
  - destruct (N.eqb_spec x c) as [->|Hx]; [tauto|].
    rewrite IH by tauto.
    destruct (Z.of_nat (List.length r)) eqn:E; lia.
Qed.

Lemma lastIndexOf_absent (s : jsstring) : ~ In c s -> lastIndexOf s c = -1.
Proof.
  induction s as [|x r IH]; simpl; intros H; [reflexivity|].
  rewrite IH by tauto.
  destruct (N.eqb_spec x c) as [->|Hx]; [tauto|reflexivity].
Qed.

Lemma lastIndexOf_last (pre post : jsstring) :
  ~ In c post -> lastIndexOf (pre ++ c :: post) c = Z.of_nat (List.length pre).
Proof.
  intros H. induction pre as [|x r IH]; simpl.
  - rewrite lastIndexOf_absent by assumption. rewrite N.eqb_refl. reflexivity.
  - rewrite IH. destruct (Z.of_nat (List.length r)) eqn:E; lia.
Qed.

(** A string either lacks [c] or splits at its first occurrence, and at
    its last. *)
Lemma split_first (s : jsstring) :
  ~ In c s \/ exists pre rest, s = pre ++ c :: rest /\ ~ In c pre.
Proof.
  induction s as [|x r IH]; [left; simpl; tauto|].
  destruct (N.eqb_spec x c) as [->|Hx].
  - right. exists [], r. simpl. tauto.
  - destruct IH as [IH|(pre & rest & -> & Hp)].
    + left. simpl. tauto.
    + right. exists (x :: pre), rest. simpl. intuition.
Qed.

Lemma split_last (s : jsstring) :
  ~ In c s \/ exists pre post, s = pre ++ c :: post /\ ~ In c post.
Proof.
  induction s as [|x r IH]; [left; simpl; tauto|].
  destruct IH as [IH|(pre & post & -> & Hp)].
  - destruct (N.eqb_spec x c) as [->|Hx].
    + right. exists [], r. simpl. tauto.
    + left. simpl. tauto.
  - right. exists (x :: pre), post. simpl. tauto.
Qed.

End Occurrences.

Lemma substring_inner (pre mid post : jsstring) :
  substring (pre ++ mid ++ post)
    (Z.of_nat (List.length pre)) (Z.of_nat (List.length pre + List.length mid)) = mid.
Proof.
  unfold substring, clamp. rewrite !length_app.
  set (p := List.length pre). set (m := List.length mid). set (q := List.length post).
  replace (Z.min (Z.max (Z.of_nat p) 0) (Z.of_nat (p + (m + q)))) with (Z.of_nat p) by lia.
  replace (Z.min (Z.max (Z.of_nat (p + m)) 0) (Z.of_nat (p + (m + q))))
    with (Z.of_nat (p + m)) by lia.
  replace (Z.min (Z.of_nat p) (Z.of_nat (p + m))) with (Z.of_nat p) by lia.
  replace (Z.max (Z.of_nat p) (Z.of_nat (p + m)) - Z.of_nat p) with (Z.of_nat m) by lia.
  rewrite !Nat2Z.id. subst p m.
  rewrite skipn_app, skipn_all, Nat.sub_diag. simpl.
  rewrite firstn_app, firstn_all, Nat.sub_diag. simpl. apply app_nil_r.
Qed.

(** With the bounds the wrong way round, [substring] swaps them. *)
Lemma substring_swapped (s : jsstring) (a b : Z) : substring s a b = substring s b a.
Proof.
  unfold substring. rewrite (Z.min_comm (clamp _ a)), (Z.max_comm (clamp _ a)). reflexivity.
Qed.

Lemma substring_negative_end (s : jsstring) (a : Z) :
  0 <= a <= Z.of_nat (List.length s) -> substring s a (-1) = firstn (Z.to_nat a) s.
Proof.
  intros H. unfold substring, clamp.
  replace (Z.min (Z.max a 0) (Z.of_nat (List.length s))) with a by lia.
  replace (Z.min (Z.max (-1) 0) (Z.of_nat (List.length s))) with 0 by lia.
  replace (Z.min a 0) with 0 by lia. replace (Z.max a 0 - 0) with a by lia.
  reflexivity.
Qed.

(** ** [JSON.parse] rejects what no JSON text can be *)

Ltac split_tests :=
  repeat match goal with
         | H : context [if ?b then _ else _] |- _ => destruct b eqn:?
         | H : context [match ?x with _ => _ end] |- _ => destruct x eqn:?
         | H : Some _ = Some _ |- _ => inversion H; subst; clear H
         | H : None = Some _ |- _ => discriminate H
         end.

Lemma complete_paren_free (stk : list frame) (v : json) : paren_free (complete stk v).
Proof. destruct stk as [|[seen|seen key] up]; exact I. Qed.

Lemma after_value_paren_free (st st' : pstate) (c : codeunit) :
  paren_free st -> after_value st c = Some st' -> paren_free st'.
Proof.
  intros G H. unfold after_value in H.
  destruct (is_ws c); [inversion H; subst; exact G|].
  split_tests; try exact I; apply complete_paren_free.
Qed.

Lemma start_value_paren_free (stk : list frame) (st' : pstate) (c : codeunit) :
  start_value stk c = Some st' -> paren_free st'.
Proof.
  unfold start_value, begin_number. intros H.
  split_tests; unfold paren_free; simpl; try exact I;
    intros E; repeat (destruct E as [E|E]; [discriminate E|]); exact E.
Qed.

Ltac case_if H :=
  match type of H with
  | context [if ?b then _ else _] => destruct b eqn:?
  end.

Lemma step_paren_free (st st' : pstate) (c : codeunit) :
  paren_free st -> step st c = Some st' -> paren_free st'.
Proof.
  intros G H. pose proof (after_value_paren_free st st' c G) as HA.
  destruct st as [stk m]. unfold step in H. simpl in H.
  destruct m; try (exact (HA H)); clear HA.
  - case_if H; [inversion H; exact I|].
    exact (start_value_paren_free _ _ _ H).
  - case_if H; [inversion H; exact I|].
    case_if H; [|exact (start_value_paren_free _ _ _ H)].
    destruct stk as [|[?|? ?] ?]; inversion H. apply complete_paren_free.
  - case_if H; [inversion H; exact I|].
    case_if H.
    + destruct stk as [|[?|? ?] ?]; inversion H. apply complete_paren_free.
    + case_if H; inversion H. exact I.
  - case_if H; [inversion H; exact I|].
    case_if H; inversion H. exact I.
  - case_if H; [inversion H; exact I|].
    case_if H; inversion H. exact I.
  - unfold step_string, complete_key in H.
    split_tests; try exact I; apply complete_paren_free.
  - unfold step_escape in H. split_tests; exact I.
  - split_tests; exact I.
  - unfold step_number in H.
    split_tests; try exact I;
      match goal with
      | H : after_value _ _ = Some _ |- _ =>
          exact (after_value_paren_free _ _ _ (complete_paren_free _ _) H)
      end.
  - destruct rest as [|x more]; [discriminate H|].
    case_if H; [|discriminate H].
    unfold paren_free in G. simpl in G.
    destruct more as [|y more']; inversion H.
    + apply complete_paren_free.
    + unfold paren_free. simpl. simpl in G. tauto.
Qed.

Lemma after_value_paren (st : pstate) : after_value st (ch "(") = None.
Proof.
  unfold after_value. simpl.
  destruct (ps_mode st); try reflexivity.
  destruct (ps_stack st) as [|[?|? ?] ?]; reflexivity.
Qed.

Lemma step_paren_pending (st st' : pstate) :
  paren_free st -> step st (ch "(") = Some st' -> at_end st' = None.
Proof.
  destruct st as [stk m]. unfold paren_free, step. cbn [ps_mode ps_stack].
  intros G H.
  destruct m; try (rewrite after_value_paren in H); try discriminate H.
  - inversion H. reflexivity.
  - unfold step_number in H. simpl in H. rewrite after_value_paren in H.
    destruct (num_final st); discriminate H.
  - destruct rest as [|x more]; [discriminate H|].
    destruct (N.eqb_spec (ch "(") x) as [<-|Hx]; [|discriminate H].
    simpl in G. tauto.
Qed.

Lemma run_open_paren_last (s : jsstring) :
  forall st, paren_free st -> run st (s ++ [ch "("]) = None.
Proof.
  induction s as [|c r IH]; intros st G; cbn [app run].
  - destruct (step st (ch "(")) as [st'|] eqn:E; [|reflexivity].
    exact (step_paren_pending st st' G E).
  - destruct (step st c) as [st'|] eqn:E; [|reflexivity].
    apply IH. exact (step_paren_free st st' c G E).
Qed.

Lemma JSON_parse_open_paren_last (s : jsstring) : JSON_parse (s ++ [ch "("]) = None.
Proof. apply run_open_paren_last. exact I. Qed.

Lemma JSON_parse_close_paren_first (s : jsstring) : JSON_parse (ch ")" :: s) = None.
Proof. reflexivity. Qed.

Lemma JSON_parse_empty : JSON_parse [] = None.
Proof. reflexivity. Qed.

(** ** A parsed payload holds no NaN *)

Lemma forallb_rev_true {A : Type} (f : A -> bool) (l : list A) :
  forallb f l = true -> forallb f (rev l) = true.
Proof.
  rewrite !forallb_forall. intros H x Hx. apply H. apply in_rev. exact Hx.
Qed.

Lemma no_nan_number_value (a : numacc) : no_nan (JNum (number_value a)) = true.
Proof.
  pose proof (number_of_decimal_not_nan (na_neg a) (na_mant a)
                ((if na_eneg a then - na_exp a else na_exp a) - na_frac a)) as H.
  unfold number_value. cbn [no_nan].
  destruct (number_of_decimal _ _ _); try reflexivity. contradiction H. reflexivity.
Qed.

Lemma complete_no_nan (stk : list frame) (v : json) :
  forallb frame_no_nan stk = true -> no_nan v = true -> state_no_nan (complete stk v).
Proof.
  intros Hs Hv. destruct stk as [|[seen|seen key] up]; unfold state_no_nan; cbn.
  - split; [reflexivity | exact Hv].
  - cbn in Hs. rewrite Hv. split; [exact Hs | reflexivity].
  - cbn in Hs. rewrite Hv. split; [exact Hs | reflexivity].
Qed.

Lemma after_value_no_nan (st st' : pstate) (c : codeunit) :
  state_no_nan st -> after_value st c = Some st' -> state_no_nan st'.
Proof.
  intros [Hs Hm] H. unfold after_value in H.
  destruct (is_ws c); [inversion H; subst; split; assumption|].
  destruct (ps_mode st); try discriminate H.
  destruct (ps_stack st) as [|[seen|seen key] up]; try discriminate H;
    cbn in Hs; apply andb_prop in Hs; destruct Hs as [Hseen Hup].
  - destruct (N.eqb c (ch ",")).
    + inversion H. split; [cbn; rewrite Hseen; exact Hup | reflexivity].
    + destruct (N.eqb c (ch "]")); [|discriminate H]. inversion H.
      apply complete_no_nan; [exact Hup|]. cbn [no_nan]. apply forallb_rev_true, Hseen.
  - destruct (N.eqb c (ch ",")).
    + inversion H. split; [cbn; rewrite Hseen; exact Hup | reflexivity].
    + destruct (N.eqb c (ch "}")); [|discriminate H]. inversion H.
      apply complete_no_nan; [exact Hup|]. cbn [no_nan]. apply forallb_rev_true, Hseen.
Qed.

Lemma start_value_no_nan (stk : list frame) (st' : pstate) (c : codeunit) :
  forallb frame_no_nan stk = true -> start_value stk c = Some st' -> state_no_nan st'.
Proof.
  intros Hs H. unfold start_value, begin_number in H.
  split_tests; split; cbn; try reflexivity; exact Hs.
Qed.

Lemma step_no_nan (st st' : pstate) (c : codeunit) :
  state_no_nan st -> step st c = Some st' -> state_no_nan st'.
Proof.
  intros G H. pose proof (after_value_no_nan st st' c G) as HA.
  destruct G as [Hs Hm]. destruct st as [stk m]. unfold step in H.
  cbn [ps_stack ps_mode] in *.
  destruct m; try (exact (HA H)); clear HA.
  - case_if H; [inversion H; split; assumption|].
    exact (start_value_no_nan _ _ _ Hs H).
  - case_if H; [inversion H; split; assumption|].
    case_if H; [|exact (start_value_no_nan _ _ _ Hs H)].
    destruct stk as [|[?|? ?] up]; inversion H.
    cbn in Hs. apply andb_prop in Hs. apply complete_no_nan; [apply Hs | reflexivity].
  - case_if H; [inversion H; split; assumption|].
    case_if H.
    + destruct stk as [|[?|? ?] up]; inversion H.
      cbn in Hs. apply andb_prop in Hs. apply complete_no_nan; [apply Hs | reflexivity].
    + case_if H; inversion H. split; [exact Hs | reflexivity].
  - case_if H; [inversion H; split; assumption|].
    case_if H; inversion H. split; [exact Hs | reflexivity].
  - case_if H; [inversion H; split; assumption|].
    case_if H; inversion H. split; [exact Hs | reflexivity].
  - unfold step_string, complete_key in H.
    case_if H.
    + destruct key.
      * destruct stk as [|[?|? ?] up]; inversion H. split; [exact Hs | reflexivity].
      * inversion H. apply complete_no_nan; [exact Hs | reflexivity].
    + case_if H; [inversion H; split; [exact Hs | reflexivity]|].
      case_if H; inversion H. split; [exact Hs | reflexivity].
  - unfold step_escape in H. split_tests; split; try exact Hs; reflexivity.
  - split_tests; split; try exact Hs; reflexivity.
  - unfold step_number in H.
    split_tests; try (split; [exact Hs | reflexivity]);
      match goal with
      | H : after_value _ _ = Some _ |- _ =>
          exact (after_value_no_nan _ _ _
                   (complete_no_nan _ _ Hs (no_nan_number_value _)) H)
      end.
  - destruct rest as [|x more]; [discriminate H|].
    case_if H; [|discriminate H].
    destruct more as [|y more']; inversion H.
    + apply complete_no_nan; assumption.
    + split; assumption.
Qed.

Lemma at_end_no_nan (st : pstate) (v : json) :
  state_no_nan st -> at_end st = Some v -> no_nan v = true.
Proof.
  intros [Hs Hm] H. unfold at_end in H.
  destruct (ps_mode st); try discriminate H.
  - destruct (ps_stack st); [|discriminate H].
    destruct (num_final st0); inversion H. apply no_nan_number_value.
  - inversion H; subst. exact Hm.
Qed.

Lemma run_no_nan (s : jsstring) :
  forall st v, state_no_nan st -> run st s = Some v -> no_nan v = true.
Proof.
  induction s as [|c rest IH]; intros st v G H; cbn [run] in H.
  - exact (at_end_no_nan st v G H).
  - destruct (step st c) as [st'|] eqn:E; [|discriminate H].
    exact (IH st' v (step_no_nan st st' c G E) H).
Qed.

(** Whatever [parseGoogleSheetsJSON] returns satisfies [no_nan]. *)
Lemma parsed_payload_no_nan (text : jsstring) (rawData : json) :
  parseGoogleSheetsJSON text = Ok rawData -> no_nan rawData = true.
Proof.
  unfold parseGoogleSheetsJSON. intros H.
  destruct (JSON_parse _) as [v|] eqn:E; inversion H; subst v.
  unfold JSON_parse in E. apply (run_no_nan _ _ rawData) in E; [exact E|].
  split; reflexivity.
Qed.

(** ** [parseGoogleSheetsJSON] *)

Lemma parse_extracts (text : jsstring) :
  parseGoogleSheetsJSON text
  = parsed_or_FormatError
      (JSON_parse (substring text (indexOf text (ch "(") + 1) (lastIndexOf text (ch ")")))).
Proof. unfold parseGoogleSheetsJSON. destruct (JSON_parse _); reflexivity. Qed.

Lemma parse_enveloped (pre mid post : jsstring) :
  ~ In (ch "(") pre -> ~ In (ch ")") post ->
  parseGoogleSheetsJSON (pre ++ ch "(" :: mid ++ ch ")" :: post)
  = parsed_or_FormatError (JSON_parse mid).
Proof.
  intros Hpre Hpost. rewrite parse_extracts. f_equal. f_equal.
  set (text := pre ++ ch "(" :: mid ++ ch ")" :: post).
  assert (indexOf text (ch "(") = Z.of_nat (List.length pre)) as ->
    by (apply indexOf_first; assumption).
  assert (lastIndexOf text (ch ")") = Z.of_nat (List.length (pre ++ ch "(" :: mid))) as ->.
  { unfold text.
    replace (pre ++ ch "(" :: mid ++ ch ")" :: post)
      with ((pre ++ ch "(" :: mid) ++ ch ")" :: post)
      by (rewrite <- app_assoc; reflexivity).
    apply lastIndexOf_last. assumption. }
  assert (text = (pre ++ [ch "("]) ++ mid ++ ch ")" :: post) as ->
    by (unfold text; rewrite <- app_assoc; reflexivity).
  replace (Z.of_nat (List.length pre) + 1) with (Z.of_nat (List.length (pre ++ [ch "("])))
    by (rewrite length_app; simpl; lia).
  replace (Z.of_nat (List.length (pre ++ ch "(" :: mid)))
    with (Z.of_nat (List.length (pre ++ [ch "("]) + List.length mid))
    by (rewrite !length_app; simpl; lia).
  apply substring_inner.
Qed.

Lemma parse_unclosed (text : jsstring) :
  ~ In (ch ")") text -> parseGoogleSheetsJSON text = Throw FormatError.
Proof.
  intros Hno. rewrite parse_extracts.
  rewrite lastIndexOf_absent by assumption.
  destruct (split_first (ch "(") text) as [Habs|(pre & rest & -> & Hpre)].
  - rewrite indexOf_absent by assumption.
    change (-1 + 1) with 0. rewrite substring_negative_end by lia. reflexivity.
  - rewrite indexOf_first by assumption.
    rewrite substring_negative_end by (rewrite length_app; simpl; lia).
    replace (Z.to_nat (Z.of_nat (List.length pre) + 1)) with (List.length pre + 1)%nat by lia.
    replace (pre ++ ch "(" :: rest) with ((pre ++ [ch "("]) ++ rest)
      by (rewrite <- app_assoc; reflexivity).
    rewrite firstn_app, length_app. simpl List.length.
    rewrite Nat.sub_diag, firstn_all2 by (rewrite length_app; simpl; lia).
    simpl firstn. rewrite app_nil_r, JSON_parse_open_paren_last. reflexivity.
Qed.

Lemma parse_closed_before_opened (a b c : jsstring) :
  ~ In (ch "(") (a ++ ch ")" :: b) -> ~ In (ch ")") (b ++ ch "(" :: c) ->
  parseGoogleSheetsJSON (a ++ ch ")" :: b ++ ch "(" :: c) = Throw FormatError.
Proof.
  intros Hopen Hclose. rewrite parse_extracts.
  set (text := a ++ ch ")" :: b ++ ch "(" :: c).
  assert (indexOf text (ch "(") = Z.of_nat (List.length (a ++ ch ")" :: b))) as ->.
  { unfold text.
    replace (a ++ ch ")" :: b ++ ch "(" :: c) with ((a ++ ch ")" :: b) ++ ch "(" :: c)
      by (rewrite <- app_assoc; reflexivity).
    apply indexOf_first. assumption. }
  assert (lastIndexOf text (ch ")") = Z.of_nat (List.length a)) as ->
    by (apply lastIndexOf_last; assumption).
  rewrite substring_swapped.
  assert (text = a ++ (ch ")" :: b ++ [ch "("]) ++ c) as ->
    by (unfold text; simpl; rewrite <- app_assoc; reflexivity).
  replace (Z.of_nat (List.length (a ++ ch ")" :: b)) + 1)
    with (Z.of_nat (List.length a + List.length (ch ")" :: b ++ [ch "("])))
    by (rewrite length_app; simpl; rewrite length_app; simpl; lia).
  rewrite substring_inner. reflexivity.
Qed.

Lemma parse_unopened (pre post : jsstring) :
  ~ In (ch "(") (pre ++ ch ")" :: post) -> ~ In (ch ")") post ->
  parseGoogleSheetsJSON (pre ++ ch ")" :: post) = parsed_or_FormatError (JSON_parse pre).
Proof.
  intros Hopen Hclose. rewrite parse_extracts. f_equal. f_equal.
  rewrite indexOf_absent by assumption.
  rewrite lastIndexOf_last by assumption.
  exact (substring_inner [] pre (ch ")" :: post)).
Qed.

(** C3, as amended.  [parseGoogleSheetsJSON] hands
    [text.substring(text.indexOf('(') + 1, text.lastIndexOf(')'))] to
    [JSON.parse] and fails with the format error exactly when that
    substring is not valid JSON.  When the first '(' comes before the last
    ')' the substring is the text between them.  A text without ')' and a
    text whose first '(' comes after its last ')' always fail.  A text
    with a ')' but no '(' is not rejected for that: the substring is then
    the text before the last ')', and its JSON value is returned. *)
Theorem parse_envelope_cases :
  (forall text,
      parseGoogleSheetsJSON text
      = parsed_or_FormatError
          (JSON_parse (substring text (indexOf text (ch "(") + 1)
                                      (lastIndexOf text (ch ")"))))) /\
  (forall pre mid post,
      ~ In (ch "(") pre -> ~ In (ch ")") post ->
      parseGoogleSheetsJSON (pre ++ ch "(" :: mid ++ ch ")" :: post)
      = parsed_or_FormatError (JSON_parse mid)) /\
  (forall text, ~ In (ch ")") text -> parseGoogleSheetsJSON text = Throw FormatError) /\
  (forall a b c,
      ~ In (ch "(") (a ++ ch ")" :: b) -> ~ In (ch ")") (b ++ ch "(" :: c) ->
      parseGoogleSheetsJSON (a ++ ch ")" :: b ++ ch "(" :: c) = Throw FormatError) /\
  (forall pre post,
      ~ In (ch "(") (pre ++ ch ")" :: post) -> ~ In (ch ")") post ->
      parseGoogleSheetsJSON (pre ++ ch ")" :: post) = parsed_or_FormatError (JSON_parse pre)).
Proof.
  split; [|split; [|split; [|split]]].
  - exact parse_extracts.
  - exact parse_enveloped.
  - exact parse_unclosed.
  - exact parse_closed_before_opened.
  - exact parse_unopened.
Qed.

Ltac not_in := simpl; intros H; repeat (destruct H as [H|H]; [discriminate H|]); exact H.

Lemma parse_envelope_cases_witness :
  parseGoogleSheetsJSON (json_lit "/*O_o*/ setResponse({'table':{'rows':[]}});")
  = Ok (JObj [(lit "table", JObj [(lit "rows", JArr [])])]) /\
  parseGoogleSheetsJSON (lit "setResponse(1") = Throw FormatError /\
  parseGoogleSheetsJSON (lit "1)(") = Throw FormatError /\
  parseGoogleSheetsJSON (lit "[true])") = Ok (JArr [JBool true]).
Proof.
  destruct parse_envelope_cases as (_ & Henv & Hunclosed & Hswapped & Hunopened).
  split; [|split; [|split]].
  - exact (Henv (lit "/*O_o*/ setResponse") (json_lit "{'table':{'rows':[]}}") (lit ";")
             ltac:(not_in) ltac:(not_in)).
  - exact (Hunclosed (lit "setResponse(1") ltac:(not_in)).
  - exact (Hswapped (lit "1") [] [] ltac:(not_in) ltac:(not_in)).
  - exact (Hunopened (lit "[true]") [] ltac:(not_in) ltac:(not_in)).
Defined.

(** C3 as stated fails: the text [1)] has no '(' at all, hence no matching
    pair, and [parseGoogleSheetsJSON] returns the number 1. *)
Lemma parse_accepts_unopened_text :
  ~ matching_pair (lit "1)") /\
  parseGoogleSheetsJSON (lit "1)") = Ok (JNum one).
Proof.
  split; [|reflexivity].
  intros (pre & mid & post & E).
  assert (In (ch "(") (lit "1)")) as H by (rewrite E; apply in_elt).
  simpl in H. destruct H as [H|[H|[]]]; discriminate H.
Qed.

(** ** The round-trip example *)

(** The payload text of the example parses to [roundtrip_table]. *)
Example roundtrip_text_parses :
  parseGoogleSheetsJSON roundtrip_text = Ok (rawData_of roundtrip_table).
Proof. vm_compute. reflexivity. Qed.

(** C2, as amended.  Normalizing the example table yields the summary of
    the example and an empty revenue series: the code reads the period
    label at offset 5 (null in the example) and the amount at offset 6
    (the string "Jan").  With the label at offset 5 and the amount at
    offset 6 the revenue series is exactly the one point. *)
Theorem roundtrip_example :
  normalize (rawData_of roundtrip_table)
  = Ok {| n_kpis := roundtrip_kpis; n_series := no_series |} /\
  normalize (rawData_of aligned_table)
  = Ok {| n_kpis := roundtrip_kpis;
          n_series := {| s_revenueTrend := [jan_1000];
                         s_weeklyConversations := [];
                         s_sourceConversions := [] |} |}.
Proof. split; vm_compute; reflexivity. Qed.

Lemma roundtrip_example_empty_series :
  exists n, normalize (rawData_of roundtrip_table) = Ok n /\
            s_revenueTrend (n_series n) = [].
Proof. eexists. split; vm_compute; reflexivity. Qed.

(** C2 as stated fails: on the example table the revenue series is not
    the one point {Jan, 1000}. *)
Lemma roundtrip_example_has_no_revenue_point :
  ~ exists n, normalize (rawData_of roundtrip_table) = Ok n /\
              n_kpis n = roundtrip_kpis /\
              s_revenueTrend (n_series n) = [jan_1000].
Proof.
  intros (n & Hn & _ & Hrev).
  destruct roundtrip_example_empty_series as [n' [Hn' Hnil]].
  rewrite Hn in Hn'. inversion Hn'; subst n'.
  rewrite Hrev in Hnil. discriminate Hnil.
Qed.

(** ** The normalizer *)

Lemma member_not_null (rawData : json) (key : jsstring) :
  rawData <> JNull -> member (Some rawData) key = Ok (get (Some rawData) key).
Proof. destruct rawData; intros H; try reflexivity. contradiction H. reflexivity. Qed.

Lemma json_null_dec (v : json) : v = JNull \/ v <> JNull.
Proof. destruct v; [left; reflexivity | right; discriminate ..]. Qed.

(** [normalize] without the first read, which only null fails. *)
Lemma normalize_not_null (rawData : json) :
  rawData <> JNull ->
  normalize rawData
  = if orb (negb (truthy (rows_of rawData))) (strict_eq_zero (length_of (rows_of rawData)))
    then Throw EmptyDatasetError
    else series <- forEach (rows_of rawData) no_series ;;
         Ok {| n_kpis := kpis_of (firstRowCells_of (rows_of rawData)); n_series := series |}.
Proof.
  intros H. unfold normalize. rewrite member_not_null by assumption. reflexivity.
Qed.

Lemma normalize_null : normalize JNull
  = Throw (TypeError (lit "Cannot read properties of null (reading 'table')")).
Proof. reflexivity. Qed.

(** A pass that succeeds got through the emptiness check and the loop. *)
Lemma normalize_Ok (rawData : json) (n : Normalized) :
  normalize rawData = Ok n ->
  n_kpis n = kpis_of (firstRowCells_of (rows_of rawData)) /\
  forEach (rows_of rawData) no_series = Ok (n_series n).
Proof.
  intros H. destruct (json_null_dec rawData) as [->|Hnn]; [discriminate H|].
  rewrite normalize_not_null in H by assumption.
  destruct (orb _ _); [discriminate H|].
  destruct (forEach _ _) as [series|e]; [|discriminate H].
  simpl in H. inversion H. split; reflexivity.
Qed.

(** C6.  When [rawData.table?.rows] is missing, null or an empty array,
    the normalizer throws the empty-dataset error, and so produces no
    summary and no series. *)
Theorem empty_dataset_rejected (rawData : json) :
  rawData <> JNull ->
  rows_of rawData = undefined \/ rows_of rawData = Some JNull \/
  rows_of rawData = Some (JArr []) ->
  normalize rawData = Throw EmptyDatasetError /\
  (forall n, normalize rawData <> Ok n).
Proof.
  intros Hnn Hrows.
  assert (normalize rawData = Throw EmptyDatasetError) as E.
  { rewrite normalize_not_null by assumption.
    destruct Hrows as [-> | [-> | ->]]; reflexivity. }
  split; [exact E|]. intros n Hn. rewrite E in Hn. discriminate Hn.
Qed.

Lemma empty_dataset_rejected_witness :
  normalize (rawData_of (table_of [])) = Throw EmptyDatasetError /\
  normalize (rawData_of (JObj [])) = Throw EmptyDatasetError /\
  normalize (JObj []) = Throw EmptyDatasetError.
Proof.
  split; [|split].
  - apply (empty_dataset_rejected (rawData_of (table_of []))).
    + discriminate.
    + right. right. reflexivity.
  - apply (empty_dataset_rejected (rawData_of (JObj []))).
    + discriminate.
    + left. reflexivity.
  - apply (empty_dataset_rejected (JObj [])).
    + discriminate.
    + left. reflexivity.
Defined.

(** *** The client-load floor *)

Lemma or_one_zero (x : number) : number_eqb x zero = true -> or_one x = one.
Proof. destruct x as [s|s| |s m e]; try discriminate; try reflexivity; destruct s; discriminate. Qed.

Lemma or_one_other (x : number) :
  number_eqb x zero = false -> x <> NaN -> or_one x = x.
Proof.
  destruct x as [s|s| |s m e]; intros H Hn; try reflexivity.
  - destruct s; discriminate H.
  - contradiction Hn. reflexivity.
Qed.

(** C5.  The [activeClientLoad] of a produced summary is 1 when the cell at
    offset 14 of the first row is missing or coerces to 0, and the coerced
    value otherwise (a number of a JSON document is never NaN). *)
Theorem active_client_load_floor (rawData : json) (n : Normalized) :
  normalize rawData = Ok n ->
  let source := index (firstRowCells_of (rows_of rawData)) 14 in
  (source = undefined -> activeClientLoad (n_kpis n) = one) /\
  (number_eqb (getNum source) zero = true -> activeClientLoad (n_kpis n) = one) /\
  (number_eqb (getNum source) zero = false -> getNum source <> NaN ->
   activeClientLoad (n_kpis n) = getNum source).
Proof.
  intros H source. destruct (normalize_Ok _ _ H) as [-> _].
  unfold kpis_of. cbn [activeClientLoad]. fold source.
  split; [|split].
  - intros ->. reflexivity.
  - apply or_one_zero.
  - apply or_one_other.
Qed.

Lemma active_client_load_floor_witness :
  activeClientLoad (n_kpis (load_result (num 7))) = number_of_Z 7 /\
  activeClientLoad (n_kpis (load_result (num 0))) = one /\
  activeClientLoad (n_kpis (load_result JNull)) = one /\
  activeClientLoad roundtrip_kpis = one.
Proof.
  split; [|split; [|split]].
  - refine (proj2 (proj2 (active_client_load_floor
                            (rawData_of (load_table (num 7))) (load_result (num 7)) _)) _ _).
    + vm_compute. reflexivity.
    + vm_compute. reflexivity.
    + vm_compute. discriminate.
  - refine (proj1 (proj2 (active_client_load_floor
                            (rawData_of (load_table (num 0))) (load_result (num 0)) _)) _).
    + vm_compute. reflexivity.
    + vm_compute. reflexivity.
  - refine (proj1 (proj2 (active_client_load_floor
                            (rawData_of (load_table JNull)) (load_result JNull) _)) _).
    + vm_compute. reflexivity.
    + vm_compute. reflexivity.
  - refine (proj1 (active_client_load_floor
                     (rawData_of roundtrip_table)
                     {| n_kpis := roundtrip_kpis; n_series := no_series |} _) _).
    + vm_compute. reflexivity.
    + vm_compute. reflexivity.
Defined.

(** *** Coercions *)

(** Induction over a document, with the elements of an array in hand. *)
Lemma json_elements_ind (P : json -> Prop) :
  P JNull -> (forall b, P (JBool b)) -> (forall n, P (JNum n)) -> (forall s, P (JStr s)) ->
  (forall items, Forall P items -> P (JArr items)) ->
  (forall members, P (JObj members)) ->
  forall v, P v.
Proof.
  intros Hnull Hbool Hnum Hstr Harr Hobj.
  fix IH 1. intros [| b | n | s | items | members].
  - exact Hnull.
  - apply Hbool.
  - apply Hnum.
  - apply Hstr.
  - apply Harr. induction items as [|x r IHr]; constructor; [apply IH | exact IHr].
  - apply Hobj.
Qed.

Lemma ToString_printable (v : json) :
  printable v = true -> exists s, ToString v = Ok s.
Proof.
  induction v as [| b | n | s | items IH | members] using json_elements_ind; intros Hp.
  - eexists; reflexivity.
  - eexists; reflexivity.
  - eexists; reflexivity.
  - eexists; reflexivity.
  - simpl in Hp. cbn [ToString].
    assert (exists parts,
               sequence (List.map (fun e => match e with
                                            | JNull => Ok []
                                            | _ => ToString e
                                            end) items) = Ok parts) as [parts ->].
    { induction items as [|x r IHr]; [eexists; reflexivity|].
      simpl in Hp. apply andb_prop in Hp. destruct Hp as [Hx Hr].
      inversion IH as [|? ? IHx IHrest]; subst.
      destruct (IHr IHrest Hr) as [parts Eparts].
      destruct (IHx Hx) as [sx Ex].
      cbn [List.map sequence]. rewrite Eparts.
      destruct x; rewrite ?Ex; eexists; reflexivity. }
    eexists; reflexivity.
  - simpl in Hp. cbn [ToString].
    destruct (own members (lit "toString")); [discriminate Hp|]. eexists; reflexivity.
Qed.

(** [getNum] is the strict coercion, and never reads a number out of a
    string. *)
Lemma getNum_strict (c : value) : getNum c = strict_number c.
Proof.
  unfold getNum, strict_number.
  destruct c as [[| b | n | s | items | members]|]; cbn [truthy get]; try reflexivity.
  - destruct b; reflexivity.
  - destruct (number_truthy n); reflexivity.
  - destruct (str_truthy s); reflexivity.
  - destruct (own members (lit "v")) as [[]|]; reflexivity.
Qed.

Lemma getNum_of_string (s : jsstring) : getNum (Some (cell (JStr s))) = zero.
Proof. reflexivity. Qed.

Lemma getStr_printable (r : json) (k : nat) :
  label_printable r k = true -> exists s, getStr (index (cells_of r) k) = Ok s.
Proof.
  unfold label_printable, getStr. intros Hp.
  destruct (truthy (index (cells_of r) k)); [|eexists; reflexivity].
  destruct (get (index (cells_of r) k) (lit "v")) as [v|]; [|eexists; reflexivity].
  destruct (ToString_printable v Hp) as [s Es].
  destruct v; try (eexists; reflexivity); rewrite Es; eexists; reflexivity.
Qed.

(** A row whose labels print never makes the callback throw. *)
Lemma each_row_total (acc : Series) (r : json) :
  labels_printable r = true -> exists acc', each_row acc r = Ok acc'.
Proof.
  unfold labels_printable. intros H.
  apply andb_prop in H. destruct H as [H5 H]. apply andb_prop in H. destruct H as [H7 H9].
  destruct (getStr_printable r 5 H5) as [month E5].
  destruct (getStr_printable r 7 H7) as [week E7].
  destruct (getStr_printable r 9 H9) as [source E9].
  unfold each_row. fold (cells_of r).
  destruct (truthy (cells_of r)); [|eexists; reflexivity].
  cbn [negb]. rewrite E5. cbn [bind]. rewrite E7. cbn [bind]. rewrite E9. cbn [bind].
  destruct (str_truthy source); [|eexists; reflexivity].
  destruct (as_number _); eexists; reflexivity.
Qed.

Lemma each_rows_total (rows : list json) :
  forall acc, forallb labels_printable rows = true -> exists acc', each_rows acc rows = Ok acc'.
Proof.
  induction rows as [|r rest IH]; intros acc H; [eexists; reflexivity|].
  simpl in H. apply andb_prop in H. destruct H as [Hr Hrest].
  destruct (each_row_total acc r Hr) as [acc1 E1].
  destruct (IH acc1 Hrest) as [acc' E'].
  exists acc'. cbn [each_rows]. rewrite E1. exact E'.
Qed.

(** *** One row of the loop *)

Lemma app_nil_end_eq {A : Type} (l : list A) : l = l ++ [].
Proof. symmetry. apply app_nil_r. Qed.

(** What a call of the callback that returns has done. *)
Lemma each_row_Ok (acc acc' : Series) (r : json) :
  each_row acc r = Ok acc' ->
  (truthy (cells_of r) = false /\ acc' = acc) \/
  (truthy (cells_of r) = true /\
   exists month week source,
     getStr (index (cells_of r) 5) = Ok month /\
     getStr (index (cells_of r) 7) = Ok week /\
     getStr (index (cells_of r) 9) = Ok source /\
     s_revenueTrend acc' = s_revenueTrend acc ++ revenue_entry month (cells_of r) /\
     s_weeklyConversations acc'
     = s_weeklyConversations acc ++ weekly_entry week (cells_of r) /\
     s_sourceConversions acc'
     = s_sourceConversions acc ++ source_entry source (cells_of r)).
Proof.
  unfold each_row. fold (cells_of r).
  destruct (truthy (cells_of r)); cbn [negb].
  - intros H. right. split; [reflexivity|].
    destruct (getStr (index (cells_of r) 5)) as [month|]; [|discriminate H].
    destruct (getStr (index (cells_of r) 7)) as [week|]; [|discriminate H].
    destruct (getStr (index (cells_of r) 9)) as [source|]; [|discriminate H].
    exists month, week, source. cbn [bind] in H.
    unfold revenue_entry, weekly_entry, source_entry.
    destruct (str_truthy month), (as_number (get (index (cells_of r) 6) (lit "v")));
      destruct (str_truthy week), (as_number (get (index (cells_of r) 8) (lit "v")));
      destruct (str_truthy source), (as_number (get (index (cells_of r) 12) (lit "v")));
      inversion H; subst acc'; cbn [s_revenueTrend s_weeklyConversations s_sourceConversions
                                    push_revenue push_weekly push_source];
      repeat split; try reflexivity; apply app_nil_end_eq.
  - intros H. left. inversion H. split; reflexivity.
Qed.

(** C7.  A row whose period-label cell coerces to the empty string adds
    nothing to the series that label belongs to: offset 5 labels the
    revenue series, offset 7 the activity series.  The numeric column
    plays no part. *)
Theorem empty_label_adds_nothing (acc acc' : Series) (r : json) :
  each_row acc r = Ok acc' ->
  (getStr (index (cells_of r) 5) = Ok [] -> s_revenueTrend acc' = s_revenueTrend acc) /\
  (getStr (index (cells_of r) 7) = Ok [] ->
   s_weeklyConversations acc' = s_weeklyConversations acc).
Proof.
  intros H.
  destruct (each_row_Ok acc acc' r H)
    as [[_ ->] | (_ & month & week & source & E5 & E7 & _ & Hrev & Hweek & _)].
  - split; reflexivity.
  - split; intros E.
    + rewrite E in E5. inversion E5; subst month. rewrite Hrev. apply app_nil_r.
    + rewrite E in E7. inversion E7; subst week. rewrite Hweek. apply app_nil_r.
Qed.

Lemma empty_label_adds_nothing_witness :
  s_revenueTrend only_week = [] /\ s_weeklyConversations only_month = [].
Proof.
  split.
  - exact (proj1 (empty_label_adds_nothing no_series only_week blank_month_row eq_refl)
             eq_refl).
  - exact (proj2 (empty_label_adds_nothing no_series only_month blank_week_row eq_refl)
             eq_refl).
Defined.

(** *** Labels of any type *)






Lemma index_of_falsy (c : value) (i : nat) : truthy c = false -> index c i = undefined.
Proof.
  destruct c as [[| | |s| |]|]; intros H; try reflexivity; try discriminate H.
  destruct s; [|discriminate H]. cbn [index]. destruct i; reflexivity.
Qed.




(** *** Rates *)

Lemma Math_abs_nonneg (x : number) : x <> NaN -> nonneg (Math_abs x).
Proof.
  destruct x as [s|s| |s m e]; intros H; try reflexivity. contradiction H. reflexivity.
Qed.

Lemma no_nan_own (members : list (jsstring * json)) (key : jsstring) (v : json) :
  forallb (fun kv => no_nan (snd kv)) members = true ->
  own members key = Some v -> no_nan v = true.
Proof.
  induction members as [|[k x] rest IH]; intros Hall Hown; [discriminate Hown|].
  cbn [forallb snd] in Hall. apply andb_prop in Hall. destruct Hall as [Hx Hrest].
  cbn [own] in Hown. destruct (own rest key) as [later|].
  - inversion Hown; subst later. apply IH; [assumption | reflexivity].
  - destruct (str_eqb k key); [|discriminate Hown]. inversion Hown; subst x. exact Hx.
Qed.

Lemma no_nan_get (c : value) (key : jsstring) :
  no_nan_value c = true -> no_nan_value (get c key) = true.
Proof.
  destruct c as [[| | | | |members]|]; intros H; try reflexivity.
  cbn [get]. destruct (own members key) as [v|] eqn:E; [|reflexivity].
  exact (no_nan_own members key v H E).
Qed.

Lemma no_nan_index (c : value) (i : nat) :
  no_nan_value c = true -> no_nan_value (index c i) = true.
Proof.
  destruct c as [[| | |s|items|members]|]; intros H; try reflexivity; cbn [index].
  - destruct (nth_error s i); reflexivity.
  - destruct (nth_error items i) as [v|] eqn:E; [|reflexivity].
    cbn [no_nan_value no_nan] in *. rewrite forallb_forall in H.
    apply H. exact (nth_error_In items i E).
  - destruct (own members _) as [v|] eqn:E; [|reflexivity].
    exact (no_nan_own members _ v H E).
Qed.

Lemma as_number_not_nan (v : value) (n : number) :
  no_nan_value v = true -> as_number v = Some n -> n <> NaN.
Proof.
  destruct v as [[| |x| | |]|]; intros H E; try discriminate E.
  inversion E; subst x. intros ->. discriminate H.
Qed.

Lemma getNum_not_nan (c : value) : no_nan_value c = true -> getNum c <> NaN.
Proof.
  intros H. unfold getNum. destruct (truthy c); [|discriminate].
  destruct (as_number (get c (lit "v"))) as [n|] eqn:E; [|discriminate].
  exact (as_number_not_nan _ n (no_nan_get c _ H) E).
Qed.

Lemma no_nan_firstRowCells (rows : value) :
  no_nan_value rows = true -> no_nan_value (firstRowCells_of rows) = true.
Proof.
  intros H. unfold firstRowCells_of.
  destruct (truthy _); [|reflexivity]. apply no_nan_get, no_nan_index, H.
Qed.

Lemma source_entry_nonneg (source : jsstring) (cells : value) :
  no_nan_value cells = true ->
  Forall (fun e => nonneg (SourceConversion.rate e)) (source_entry source cells).
Proof.
  intros H. unfold source_entry.
  destruct (str_truthy source); [|constructor].
  destruct (as_number _) as [r|] eqn:E; constructor; [|constructor].
  apply Math_abs_nonneg.
  exact (as_number_not_nan _ r (no_nan_get _ _ (no_nan_index _ _ H)) E).
Qed.

Lemma each_rows_rates (rows : list json) :
  forall acc acc',
    forallb no_nan rows = true -> each_rows acc rows = Ok acc' ->
    Forall (fun e => nonneg (SourceConversion.rate e)) (s_sourceConversions acc) ->
    Forall (fun e => nonneg (SourceConversion.rate e)) (s_sourceConversions acc').
Proof.
  induction rows as [|r rest IH]; intros acc acc' Hall Hrun Hacc.
  - inversion Hrun; subst acc'. exact Hacc.
  - cbn [forallb] in Hall. apply andb_prop in Hall. destruct Hall as [Hr Hrest].
    cbn [each_rows] in Hrun.
    destruct (each_row acc r) as [acc1|] eqn:E1; [|discriminate Hrun].
    apply (IH acc1 acc' Hrest Hrun).
    destruct (each_row_Ok acc acc1 r E1)
      as [[_ ->] | (_ & month & week & source & _ & _ & _ & _ & _ & Hsrc)];
      [exact Hacc|].
    rewrite Hsrc. apply Forall_app. split; [exact Hacc|].
    apply source_entry_nonneg. unfold cells_of. apply (no_nan_get (Some r)). exact Hr.
Qed.

(** C9.  In the current normalizer the conversion rate of the summary and
    the win rate of every source-breakdown entry are absolute values, so
    they are non-negative, whatever the sign in the sheet (a number of a
    JSON document is never NaN). *)
Theorem rates_nonnegative (rawData : json) (n : Normalized) :
  no_nan rawData = true ->
  normalize rawData = Ok n ->
  nonneg (conversionRate (n_kpis n)) /\
  Forall (fun e => nonneg (SourceConversion.rate e)) (s_sourceConversions (n_series n)) /\
  conversionRate (n_kpis n)
  = Math_abs (getNum (index (firstRowCells_of (rows_of rawData)) 3)).
Proof.
  intros Hnan Hrun. destruct (normalize_Ok rawData n Hrun) as [Hk Hloop].
  assert (no_nan_value (rows_of rawData) = true) as Hrows
      by (unfold rows_of; apply no_nan_get, (no_nan_get (Some rawData)), Hnan).
  split; [|split].
  - rewrite Hk. cbn [kpis_of conversionRate].
    apply Math_abs_nonneg, getNum_not_nan, no_nan_index, no_nan_firstRowCells, Hrows.
  - unfold forEach in Hloop.
    destruct (rows_of rawData) as [[| | | |items|]|]; try discriminate Hloop.
    apply (each_rows_rates items no_series (n_series n) Hrows Hloop). constructor.
  - rewrite Hk. reflexivity.
Qed.

Lemma rates_nonnegative_witness :
  exists n, normalize negative_rates = Ok n /\
            conversionRate (n_kpis n) = number_of_decimal false 4 (-1) /\
            nonneg (conversionRate (n_kpis n)) /\
            Forall (fun e => nonneg (SourceConversion.rate e))
                   (s_sourceConversions (n_series n)).
Proof.
  eexists. split; [vm_compute; reflexivity|]. split; [reflexivity|].
  match goal with
  | |- nonneg (conversionRate (n_kpis ?n)) /\ _ =>
      destruct (rates_nonnegative negative_rates n eq_refl eq_refl) as (H1 & H2 & _)
  end.
  split; [exact H1 | exact H2].
Defined.

(** ** [fetchData] and the component *)

Lemma sequence_Throw {A : Type} (rs : list (result A)) (e : exn) :
  sequence rs = Throw e -> In (Throw e) rs.
Proof.
  induction rs as [|r rest IH]; intros H; [discriminate H|].
  cbn [sequence] in H. destruct r as [a|e']; cbn [bind] in H.
  - destruct (sequence rest) as [l|e'']; [discriminate H|].
    cbn [bind] in H. inversion H; subst e''. right. apply IH. reflexivity.
  - inversion H. left. reflexivity.
Qed.

(** [String()] throws one thing only. *)
Lemma ToString_Throw (v : json) (e : exn) :
  ToString v = Throw e ->
  e = TypeError (lit "Cannot convert object to primitive value").
Proof.
  induction v as [| b | n | s | items IH | members] using json_elements_ind;
    intros H; try discriminate H.
  - cbn [ToString] in H.
    destruct (sequence _) as [parts|e'] eqn:E; [discriminate H|].
    cbn [bind] in H. inversion H; subst e'.
    apply sequence_Throw in E. apply in_map_iff in E. destruct E as (x & Ex & Hin).
    rewrite Forall_forall in IH. apply (IH x Hin).
    destruct x; try exact Ex; discriminate Ex.
  - cbn [ToString] in H. destruct (own members _); inversion H. reflexivity.
Qed.

Lemma getStr_Throw (c : value) (e : exn) :
  getStr c = Throw e -> e = TypeError (lit "Cannot convert object to primitive value").
Proof.
  unfold getStr. destruct (truthy c); [|discriminate].
  destruct (get c (lit "v")) as [v|]; [|discriminate].
  intros H. apply (ToString_Throw v). destruct v; try exact H. discriminate H.
Qed.

Lemma each_row_Throw (acc : Series) (r : json) (e : exn) :
  each_row acc r = Throw e -> e = TypeError (lit "Cannot convert object to primitive value").
Proof.
  unfold each_row. destruct (negb _); [discriminate|].
  destruct (getStr (index _ 5)) as [month|e5] eqn:E5; cbn [bind];
    [|intros H; inversion H; subst e5; exact (getStr_Throw _ _ E5)].
  destruct (getStr (index _ 7)) as [week|e7] eqn:E7; cbn [bind];
    [|intros H; inversion H; subst e7; exact (getStr_Throw _ _ E7)].
  destruct (getStr (index _ 9)) as [source|e9] eqn:E9; cbn [bind];
    [|intros H; inversion H; subst e9; exact (getStr_Throw _ _ E9)].
  destruct (str_truthy source); [destruct (as_number _)|]; discriminate.
Qed.

Lemma each_rows_Throw (rows : list json) :
  forall acc e, each_rows acc rows = Throw e ->
                e = TypeError (lit "Cannot convert object to primitive value").
Proof.
  induction rows as [|r rest IH]; intros acc e H; [discriminate H|].
  cbn [each_rows] in H. destruct (each_row acc r) as [acc1|e1] eqn:E1; cbn [bind] in H.
  - exact (IH acc1 e H).
  - inversion H; subst e1. exact (each_row_Throw acc r e E1).
Qed.

(** Whatever the normalizer throws carries a message. *)
Lemma normalize_Throw (rawData : json) (e : exn) :
  normalize rawData = Throw e -> catch_message e <> [].
Proof.
  destruct (json_null_dec rawData) as [->|Hnn].
  - intros H. inversion H. discriminate.
  - rewrite normalize_not_null by assumption.
    destruct (orb _ _); [intros H; inversion H; discriminate|].
    destruct (forEach _ _) as [series|e'] eqn:E; [discriminate|].
    cbn [bind]. intros H. inversion H; subst e'.
    unfold forEach in E.
    destruct (rows_of rawData) as [[| | | |items|]|];
      try (inversion E; discriminate).
    rewrite (each_rows_Throw items no_series e E). discriminate.
Qed.

Lemma fetchData_try_Throw (r : fetched) (e : exn) :
  raised_by_pipeline r -> fetchData_try r = Throw e -> catch_message e <> [].
Proof.
  destruct r as [reason|[|] [body|reason]]; cbn [raised_by_pipeline fetchData_try negb bind];
    try contradiction; intros _ H; try (inversion H; discriminate).
  unfold parseGoogleSheetsJSON in H.
  destruct (JSON_parse _) as [rawData|]; cbn [bind] in H.
  - exact (normalize_Throw rawData e H).
  - inversion H. discriminate.
Qed.

(** What a rejected [fetch] or [response.text()] throws is what the pass
    throws. *)
Lemma fetchData_try_rejection (r : fetched) (reason err : exn) :
  rejection r = Some reason -> fetchData_try r = Throw err -> err = reason.
Proof.
  destruct r as [reason'|[|] [body|reason']]; cbn [rejection fetchData_try negb bind];
    intros Hr H; try discriminate Hr; inversion Hr; subst; inversion H; reflexivity.
Qed.

Lemma rejection_or_pipeline (r : fetched) :
  rejection r = None -> raised_by_pipeline r.
Proof.
  destruct r as [reason|[|] [body|reason]]; cbn [rejection raised_by_pipeline];
    intros H; try discriminate H; exact I.
Qed.

(** C8.  A pass that fails, for whatever reason, ends with [loading] false
    and the error set to the message of what was thrown, and leaves the
    summary, the three series and [lastUpdated] as they were.  The message
    is not empty whenever the failure was raised by the pipeline itself
    (HTTP status not OK, format error, empty dataset, or a type error on
    a malformed table).  When [fetch] or [response.text()] rejects, what was
    thrown is the rejection's reason and the error is its message as it
    comes; an empty published message can only come from there. *)
Theorem failed_pass_keeps_data (r : fetched) (now : Date) (prev : DashboardState)
    (err : exn) :
  fetchData_try r = Throw err ->
  let next := fetchData_end r now prev in
  loading next = false /\
  error next = Some (catch_message err) /\
  (raised_by_pipeline r -> catch_message err <> []) /\
  (forall reason, rejection r = Some reason -> err = reason) /\
  (catch_message err = [] -> rejection r = Some err) /\
  kpis next = kpis prev /\
  revenueTrend next = revenueTrend prev /\
  weeklyConversations next = weeklyConversations prev /\
  sourceConversions next = sourceConversions prev /\
  lastUpdated next = lastUpdated prev.
Proof.
  intros H next. unfold next, fetchData_end. rewrite H.
  cbn [loading error kpis revenueTrend weeklyConversations sourceConversions lastUpdated].
  split; [reflexivity|]. split; [reflexivity|].
  split; [intros Hr; exact (fetchData_try_Throw r err Hr H)|].
  split; [intros reason Hr; exact (fetchData_try_rejection r reason err Hr H)|].
  split; [|repeat split].
  intros Hm. destruct (rejection r) as [reason|] eqn:Er.
  - rewrite (fetchData_try_rejection r reason err Er H). reflexivity.
  - exfalso. exact (fetchData_try_Throw r err (rejection_or_pipeline r Er) H Hm).
Qed.

Lemma failed_pass_keeps_data_witness :
  let failed_http := fetchData_end (Response false (Ok [])) 1700000300000 (state loaded) in
  let failed_format :=
    fetchData_end (Response true (Ok (lit "<html>not found</html>"))) 1700000300000
      (state loaded) in
  let failed_empty :=
    fetchData_end (Response true (Ok (json_lit "x({'table':{'rows':[]}})"))) 1700000300000
      (state loaded) in
  let failed_fetch :=
    fetchData_end (Rejected (TypeError (lit "Failed to fetch"))) 1700000300000
      (state loaded) in
  (loading failed_http = false /\ error failed_http = Some (lit "Data sync failed") /\
   kpis failed_http = Some roundtrip_kpis /\ lastUpdated failed_http = Some 1700000000000) /\
  (error failed_format = Some (lit "Invalid data format from Google Sheets") /\
   kpis failed_format = Some roundtrip_kpis) /\
  (error failed_empty = Some (lit "No dataset records found") /\
   kpis failed_empty = Some roundtrip_kpis) /\
  (error failed_fetch = Some (lit "Failed to fetch") /\
   kpis failed_fetch = Some roundtrip_kpis).
Proof.
  cbv zeta. split; [|split; [|split]].
  - destruct (failed_pass_keeps_data (Response false (Ok [])) 1700000300000 (state loaded)
                TransportError eq_refl) as (Hl & He & _ & _ & _ & Hk & _ & _ & _ & Hu).
    split; [exact Hl|]. split; [exact He|]. split; [rewrite Hk | rewrite Hu];
      vm_compute; reflexivity.
  - destruct (failed_pass_keeps_data (Response true (Ok (lit "<html>not found</html>")))
                1700000300000 (state loaded) FormatError eq_refl)
      as (_ & He & _ & _ & _ & Hk & _).
    split; [exact He|]. rewrite Hk. vm_compute. reflexivity.
  - destruct (failed_pass_keeps_data (Response true (Ok (json_lit "x({'table':{'rows':[]}})")))
                1700000300000 (state loaded) EmptyDatasetError eq_refl)
      as (_ & He & _ & _ & _ & Hk & _).
    split; [exact He|]. rewrite Hk. vm_compute. reflexivity.
  - destruct (failed_pass_keeps_data (Rejected (TypeError (lit "Failed to fetch")))
                1700000300000 (state loaded) (TypeError (lit "Failed to fetch")) eq_refl)
      as (_ & He & _ & _ & _ & Hk & _).
    split; [exact He|]. rewrite Hk. vm_compute. reflexivity.
Defined.

(** C8 as stated fails: a pass whose [fetch] rejects with an error that
    carries an empty message is a failed pass, and the error it publishes
    is the empty string. *)
Lemma failed_pass_may_publish_empty_message :
  fetchData_try (Rejected (Error [])) = Throw (Error []) /\
  error (fetchData_end (Rejected (Error [])) 1700000300000 (state loaded)) = Some [] /\
  ~ (forall (r : fetched) (now : Date) (prev : DashboardState) (err : exn),
        fetchData_try r = Throw err ->
        exists message, error (fetchData_end r now prev) = Some message /\ message <> []).
Proof.
  split; [reflexivity|]. split; [reflexivity|].
  intros H.
  destruct (H (Rejected (Error [])) 1700000300000 (state loaded) (Error []) eq_refl)
    as (message & Hm & Hne).
  cbn in Hm. inversion Hm. apply Hne. symmetry. assumption.
Qed.

(** *** Refresh while a pass is in flight *)

(** The header button of the current component calls [fetchData] whenever
    the dashboard is on screen, loading or not. *)
Lemma refresh_click_unguarded (a : App) :
  render (state a) = Dashboard ->
  handle a ClickRefresh = call_fetchData a /\
  pending (handle a ClickRefresh) = S (pending a).
Proof. intros H. cbn [handle]. rewrite H. split; reflexivity. Qed.

(** The older component's button is disabled while loading. *)
Lemma legacy_click_guarded (a : App) :
  loading (state a) = true -> Legacy.handle_click a = a.
Proof. intros H. unfold Legacy.handle_click. rewrite H. reflexivity. Qed.

(** C1 on the code.  After a first successful pass, two clicks on the
    header's refresh button, the second while the first pass is still
    loading, leave two calls of [fetchData] suspended on the network: the
    second click is not a no-op.  The older component ignores the second
    click. *)
Theorem second_refresh_click_starts_second_fetch :
  pending loaded = 0%nat /\
  render (state loaded) = Dashboard /\
  loading (state (handle loaded ClickRefresh)) = true /\
  pending (handle loaded ClickRefresh) = 1%nat /\
  pending (handle_all loaded [ClickRefresh; ClickRefresh]) = 2%nat /\
  pending (Legacy.handle_click (Legacy.handle_click loaded)) = 1%nat.
Proof. vm_compute. repeat split. Qed.

(** *** The normalizer on loosely typed cells *)

Lemma label_of_falsy_cells (r : json) (k : nat) :
  truthy (cells_of r) = false -> label_of r k = [].
Proof. intros H. unfold label_of. rewrite (index_of_falsy _ _ H). reflexivity. Qed.

(** A call of the callback that returns has appended the row's
    contributions, and nothing else. *)
Lemma each_row_contributes (acc acc' : Series) (r : json) :
  each_row acc r = Ok acc' ->
  s_revenueTrend acc' = s_revenueTrend acc ++ row_revenue r /\
  s_weeklyConversations acc' = s_weeklyConversations acc ++ row_weekly r /\
  s_sourceConversions acc' = s_sourceConversions acc ++ row_source r.
Proof.
  intros H. unfold row_revenue, row_weekly, row_source.
  destruct (each_row_Ok acc acc' r H)
    as [[Hc ->] | (_ & month & week & source & E5 & E7 & E9 & Hrev & Hweek & Hsrc)].
  - rewrite !(label_of_falsy_cells r _ Hc).
    unfold revenue_entry, weekly_entry, source_entry. cbn [str_truthy].
    rewrite !app_nil_r. repeat split.
  - unfold label_of. rewrite E5, E7, E9. repeat split; assumption.
Qed.

Lemma each_rows_contribute (rows : list json) :
  forall acc acc',
    each_rows acc rows = Ok acc' ->
    s_revenueTrend acc' = s_revenueTrend acc ++ flat_map row_revenue rows /\
    s_weeklyConversations acc' = s_weeklyConversations acc ++ flat_map row_weekly rows /\
    s_sourceConversions acc' = s_sourceConversions acc ++ flat_map row_source rows.
Proof.
  induction rows as [|r rest IH]; intros acc acc' H.
  - inversion H; subst acc'. cbn [flat_map]. rewrite !app_nil_r. repeat split.
  - cbn [each_rows] in H. destruct (each_row acc r) as [acc1|] eqn:E1; [|discriminate H].
    cbn [bind] in H.
    destruct (each_row_contributes acc acc1 r E1) as (H1 & H2 & H3).
    destruct (IH acc1 acc' H) as (K1 & K2 & K3).
    cbn [flat_map]. rewrite K1, K2, K3, H1, H2, H3, <- !app_assoc. repeat split.
Qed.

(** [String()] throws on everything that is not printable. *)
Lemma ToString_unprintable (v : json) :
  printable v = false ->
  ToString v = Throw (TypeError (lit "Cannot convert object to primitive value")).
Proof.
  induction v as [| b | n | s | items IH | members] using json_elements_ind; intros Hp;
    try discriminate Hp.
  - cbn [ToString printable] in *.
    assert (sequence (List.map (fun e => match e with
                                         | JNull => Ok []
                                         | _ => ToString e
                                         end) items)
            = Throw (TypeError (lit "Cannot convert object to primitive value"))) as ->.
    { induction items as [|x rest IHr]; [discriminate Hp|].
      inversion IH as [|? ? IHx IHrest]; subst.
      cbn [forallb] in Hp. cbn [List.map sequence].
      destruct (printable x) eqn:Px.
      - cbn [andb] in Hp. rewrite (IHr IHrest Hp).
        destruct (ToString_printable x Px) as [sx Ex].
        destruct x; rewrite ?Ex; reflexivity.
      - rewrite (IHx eq_refl). destruct x; try discriminate Px; reflexivity. }
    reflexivity.
  - cbn [ToString printable] in *.
    destruct (own members (lit "toString")); [reflexivity | discriminate Hp].
Qed.

Lemma getStr_unprintable (r : json) (k : nat) :
  label_printable r k = false ->
  getStr (index (cells_of r) k)
  = Throw (TypeError (lit "Cannot convert object to primitive value")).
Proof.
  unfold label_printable, getStr.
  destruct (index (cells_of r) k) as [[| | | | |members]|]; cbn [get truthy];
    try discriminate.
  destruct (own members (lit "v")) as [v|]; [|discriminate].
  intros Hp. rewrite <- (ToString_unprintable v Hp).
  destruct v; try discriminate Hp; reflexivity.
Qed.

(** A row with a label that does not print makes the callback throw. *)
Lemma each_row_unprintable (acc : Series) (r : json) :
  labels_printable r = false ->
  each_row acc r = Throw (TypeError (lit "Cannot convert object to primitive value")).
Proof.
  intros H.
  assert (truthy (cells_of r) = true) as Hc.
  { destruct (truthy (cells_of r)) eqn:E; [reflexivity|].
    unfold labels_printable, label_printable in H.
    rewrite !(index_of_falsy _ _ E) in H. discriminate H. }
  unfold each_row. fold (cells_of r). rewrite Hc. cbn [negb].
  unfold labels_printable in H.
  destruct (label_printable r 5) eqn:P5.
  - destruct (getStr_printable r 5 P5) as [month ->]. cbn [bind].
    destruct (label_printable r 7) eqn:P7.
    + destruct (getStr_printable r 7 P7) as [week ->]. cbn [bind].
      cbn [andb] in H. rewrite (getStr_unprintable r 9 H). reflexivity.
    + rewrite (getStr_unprintable r 7 P7). reflexivity.
  - rewrite (getStr_unprintable r 5 P5). reflexivity.
Qed.

Lemma each_rows_unprintable (rows : list json) :
  forall acc, forallb labels_printable rows = false ->
              each_rows acc rows
              = Throw (TypeError (lit "Cannot convert object to primitive value")).
Proof.
  induction rows as [|r rest IH]; intros acc H; [discriminate H|].
  cbn [forallb] in H. cbn [each_rows].
  destruct (labels_printable r) eqn:Pr.
  - destruct (each_row_total acc r Pr) as [acc1 ->]. cbn [bind]. apply IH. exact H.
  - rewrite (each_row_unprintable acc r Pr). reflexivity.
Qed.

(** The normalizer on a table with at least one row: the loop decides. *)
Lemma normalize_rows (rawData r : json) (rest : list json) :
  rows_of rawData = Some (JArr (r :: rest)) ->
  normalize rawData
  = (series <- each_rows no_series (r :: rest) ;;
     Ok {| n_kpis := kpis_of (firstRowCells_of (rows_of rawData)); n_series := series |}).
Proof.
  intros Hrows.
  assert (rawData <> JNull) as Hnn by (intros ->; discriminate Hrows).
  rewrite normalize_not_null by assumption. rewrite Hrows.
  cbn [truthy negb length_of strict_eq_zero orb forEach].
  replace (number_eqb (number_of_Z (Z.of_nat (List.length (r :: rest)))) zero) with false
    by (symmetry; apply length_not_zero).
  reflexivity.
Qed.

(** The counts and the attributed revenue of a source entry are strict
    coercions of the cells of its row. *)
Lemma row_source_strict (r : json) (e : SourceConversion.t) :
  In e (row_source r) -> source_counts_strict r e.
Proof.
  unfold row_source, source_entry.
  destruct (str_truthy _); [destruct (as_number _)|]; intros H; try contradiction H.
  destruct H as [<-|[]]. unfold source_counts_strict.
  cbn [SourceConversion.qualified SourceConversion.converted SourceConversion.revenue].
  rewrite !getNum_strict. repeat split; reflexivity.
Qed.

(** C4.  On a table with at least one row the normalizer fails in one case
    only: some row holds, as the value of a label cell (offset 5, 7 or 9),
    an object with its own [toString] member (or an array that reaches
    one), which [String()] cannot convert; the failure is a type error.
    Cells that are absent, null or of any other type never make it fail.
    When it returns, the numeric summary fields are the strict coercions of
    the first row's cells (the conversion rate in absolute value, the
    client load with its floor of 1), and the counts and the attributed
    revenue of every source entry are the strict coercions of the cells of
    a row.  The strict coercion of a cell is its raw value when that is of
    type number and 0 otherwise, a numeric-looking string included. *)
Theorem normalize_strict_and_total (rawData r : json) (rest : list json) :
  rows_of rawData = Some (JArr (r :: rest)) ->
  (forallb labels_printable (r :: rest) = true ->
   exists n, normalize rawData = Ok n /\
     (let cells := firstRowCells_of (rows_of rawData) in
      totalOpportunities (n_kpis n) = strict_number (index cells 0) /\
      qualifiedConversations (n_kpis n) = strict_number (index cells 1) /\
      convertedClients (n_kpis n) = strict_number (index cells 2) /\
      conversionRate (n_kpis n) = Math_abs (strict_number (index cells 3)) /\
      totalRevenue (n_kpis n) = strict_number (index cells 4) /\
      activeClientLoad (n_kpis n) = or_one (strict_number (index cells 14))) /\
     Forall (fun e => exists row, In row (r :: rest) /\ source_counts_strict row e)
            (s_sourceConversions (n_series n))) /\
  (forallb labels_printable (r :: rest) = false ->
   normalize rawData
   = Throw (TypeError (lit "Cannot convert object to primitive value"))) /\
  (forall c, getNum c = strict_number c) /\
  (forall s, getNum (Some (cell (JStr s))) = zero).
Proof.
  intros Hrows.
  split; [|split; [|split; [exact getNum_strict | exact getNum_of_string]]].
  - intros Hlabels.
    destruct (each_rows_total (r :: rest) no_series Hlabels) as [series Eseries].
    exists {| n_kpis := kpis_of (firstRowCells_of (rows_of rawData)); n_series := series |}.
    split; [rewrite (normalize_rows rawData r rest Hrows), Eseries; reflexivity|].
    split.
    + cbn [n_kpis kpis_of totalOpportunities qualifiedConversations convertedClients
             conversionRate totalRevenue activeClientLoad].
      rewrite !getNum_strict. repeat split; reflexivity.
    + cbn [n_series].
      destruct (each_rows_contribute (r :: rest) no_series series Eseries) as (_ & _ & ->).
      cbn [no_series s_sourceConversions app].
      apply Forall_forall. intros e He. apply in_flat_map in He.
      destruct He as (row0 & Hin & He). exists row0. split; [exact Hin|].
      exact (row_source_strict row0 e He).
  - intros Hlabels. rewrite (normalize_rows rawData r rest Hrows).
    rewrite (each_rows_unprintable (r :: rest) no_series Hlabels). reflexivity.
Qed.

Lemma normalize_strict_and_total_witness :
  exists n, normalize (rawData_of loose_table) = Ok n /\
            totalOpportunities (n_kpis n) = zero /\
            qualifiedConversations (n_kpis n) = zero /\
            convertedClients (n_kpis n) = number_of_Z 2 /\
            activeClientLoad (n_kpis n) = one /\
            Forall (fun e => exists row,
                        In row [loose_first_row; loose_source_row] /\
                        source_counts_strict row e)
                   (s_sourceConversions (n_series n)).
Proof.
  destruct (normalize_strict_and_total (rawData_of loose_table)
              loose_first_row [loose_source_row] eq_refl) as [Hok _].
  destruct (Hok eq_refl) as (n & Hn & (H0 & H1 & H2 & _ & _ & H14) & Hsrc).
  exists n. split; [exact Hn|].
  rewrite H0, H1, H2, H14. repeat split. exact Hsrc.
Defined.

(** C4 as stated fails: the table of [object_label_table] has one row, its
    month label is a cell that holds no number, and the normalizer
    throws. *)
Lemma object_label_makes_normalize_throw :
  rows_of (rawData_of object_label_table) = Some (JArr [object_label_row]) /\
  as_number (get (index (cells_of object_label_row) 5) (lit "v")) = None /\
  normalize (rawData_of object_label_table)
  = Throw (TypeError (lit "Cannot convert object to primitive value")).
Proof. split; [reflexivity|]. split; [reflexivity|]. vm_compute. reflexivity. Qed.

(** * Further properties of the code *)

(** ** The loop over the rows *)

Lemma entry_at_most_one {A : Type} (f : json -> list A) (rows : list json) :
  (forall r, (List.length (f r) <= 1)%nat) ->
  (List.length (flat_map f rows) <= List.length rows)%nat.
Proof.
  intros Hf. induction rows as [|r rest IH]; [apply Nat.le_refl|].
  cbn [flat_map List.length]. rewrite length_app. specialize (Hf r). lia.
Qed.

Lemma row_revenue_at_most_one (r : json) : (List.length (row_revenue r) <= 1)%nat.
Proof.
  unfold row_revenue, revenue_entry.
  destruct (str_truthy _); [destruct (as_number _)|]; cbn; lia.
Qed.

Lemma row_weekly_at_most_one (r : json) : (List.length (row_weekly r) <= 1)%nat.
Proof.
  unfold row_weekly, weekly_entry.
  destruct (str_truthy _); [destruct (as_number _)|]; cbn; lia.
Qed.

Lemma row_source_at_most_one (r : json) : (List.length (row_source r) <= 1)%nat.
Proof.
  unfold row_source, source_entry.
  destruct (str_truthy _); [destruct (as_number _)|]; cbn; lia.
Qed.

Lemma forEach_Ok (rows : value) (acc acc' : Series) :
  forEach rows acc = Ok acc' ->
  exists items, rows = Some (JArr items) /\ each_rows acc items = Ok acc'.
Proof.
  unfold forEach. destruct rows as [[| | | |items|]|]; try discriminate.
  intros H. exists items. split; [reflexivity | exact H].
Qed.

(** X1.  The three series of a pass that succeeds are built row by row in
    the order of the sheet: each is the concatenation of what the rows
    contribute, a row contributes at most one entry to each, and nothing is
    merged or reordered; no series is longer than the table. *)
Theorem series_follow_the_rows (rawData : json) (n : Normalized) :
  normalize rawData = Ok n ->
  exists items,
    rows_of rawData = Some (JArr items) /\
    s_revenueTrend (n_series n) = flat_map row_revenue items /\
    s_weeklyConversations (n_series n) = flat_map row_weekly items /\
    s_sourceConversions (n_series n) = flat_map row_source items /\
    (List.length (s_revenueTrend (n_series n)) <= List.length items)%nat /\
    (List.length (s_weeklyConversations (n_series n)) <= List.length items)%nat /\
    (List.length (s_sourceConversions (n_series n)) <= List.length items)%nat.
Proof.
  intros H. destruct (normalize_Ok rawData n H) as [_ Hloop].
  destruct (forEach_Ok _ _ _ Hloop) as (items & Hrows & Hrun).
  destruct (each_rows_contribute items no_series (n_series n) Hrun) as (H1 & H2 & H3).
  cbn [no_series s_revenueTrend s_weeklyConversations s_sourceConversions app] in H1, H2, H3.
  exists items. rewrite H1, H2, H3.
  repeat split; try assumption.
  - apply entry_at_most_one, row_revenue_at_most_one.
  - apply entry_at_most_one, row_weekly_at_most_one.
  - apply entry_at_most_one, row_source_at_most_one.
Qed.

Lemma series_follow_the_rows_witness :
  exists n, normalize repeated_sources = Ok n /\
            List.map SourceConversion.source (s_sourceConversions (n_series n))
            = [lit "LinkedIn"; lit "Organic"; lit "LinkedIn"].
Proof.
  assert (exists n, normalize repeated_sources = Ok n) as [n H]
      by (eexists; vm_compute; reflexivity).
  exists n. split; [exact H|].
  destruct (series_follow_the_rows repeated_sources n H)
    as (items & Hrows & _ & _ & Hsrc & _).
  rewrite Hsrc. vm_compute in Hrows. inversion Hrows; subst items.
  vm_compute. reflexivity.
Defined.

(** X2.  The summary is read from the first row alone: two payloads whose
    tables start with the same row yield the same summary, whatever
    follows. *)
Theorem summary_from_first_row (rawData1 rawData2 r : json) (rest1 rest2 : list json)
    (n1 n2 : Normalized) :
  rows_of rawData1 = Some (JArr (r :: rest1)) ->
  rows_of rawData2 = Some (JArr (r :: rest2)) ->
  normalize rawData1 = Ok n1 -> normalize rawData2 = Ok n2 ->
  n_kpis n1 = n_kpis n2.
Proof.
  intros R1 R2 H1 H2.
  destruct (normalize_Ok _ _ H1) as [-> _]. destruct (normalize_Ok _ _ H2) as [-> _].
  rewrite R1, R2. reflexivity.
Qed.

Lemma summary_from_first_row_witness :
  exists n1 n2,
    normalize (rawData_of (table_of [blank_week_row])) = Ok n1 /\
    normalize (rawData_of (table_of [blank_week_row; numeric_label_row; JNull])) = Ok n2 /\
    n_kpis n1 = n_kpis n2.
Proof.
  assert (exists n, normalize (rawData_of (table_of [blank_week_row])) = Ok n) as [n1 H1]
      by (eexists; vm_compute; reflexivity).
  assert (exists n, normalize (rawData_of (table_of [blank_week_row; numeric_label_row;
                                                     JNull])) = Ok n) as [n2 H2]
      by (eexists; vm_compute; reflexivity).
  exists n1, n2. split; [exact H1|]. split; [exact H2|].
  exact (summary_from_first_row
           (rawData_of (table_of [blank_week_row]))
           (rawData_of (table_of [blank_week_row; numeric_label_row; JNull]))
           blank_week_row [] [numeric_label_row; JNull] n1 n2 eq_refl eq_refl H1 H2).
Defined.

(** *** Rows without cells *)

Lemma each_rows_app (a b : list json) :
  forall acc, each_rows acc (a ++ b) = (acc' <- each_rows acc a ;; each_rows acc' b).
Proof.
  induction a as [|r rest IH]; intros acc; [reflexivity|].
  cbn [app each_rows]. destruct (each_row acc r) as [acc1|e]; [|reflexivity].
  cbn [bind]. apply IH.
Qed.

Lemma each_row_without_cells (acc : Series) (r : json) :
  truthy (cells_of r) = false -> each_row acc r = Ok acc.
Proof.
  intros H. unfold each_row. fold (cells_of r). rewrite H. reflexivity.
Qed.

Lemma normalize_of_rows (r : json) (rest : list json) :
  normalize (rawData_of (table_of (r :: rest)))
  = (series <- each_rows no_series (r :: rest) ;;
     Ok {| n_kpis := kpis_of (firstRowCells_of (Some (JArr (r :: rest))));
           n_series := series |}).
Proof.
  rewrite normalize_not_null by discriminate.
  change (rows_of (rawData_of (table_of (r :: rest)))) with (Some (JArr (r :: rest))).
  cbn [truthy negb orb length_of strict_eq_zero forEach].
  rewrite length_not_zero. reflexivity.
Qed.

(** X3.  A row that is null, or whose [c] is missing, null or otherwise
    falsy, is skipped: placed anywhere after the first row it changes
    neither the outcome of the pass nor anything in its result. *)
Theorem rows_without_cells_are_skipped (first blank : json) (before after : list json) :
  truthy (cells_of blank) = false ->
  normalize (rawData_of (table_of (first :: before ++ blank :: after)))
  = normalize (rawData_of (table_of (first :: before ++ after))).
Proof.
  intros Hblank. rewrite !normalize_of_rows.
  assert (each_rows no_series (first :: before ++ blank :: after)
          = each_rows no_series (first :: before ++ after)) as ->.
  { change (first :: before ++ blank :: after) with ((first :: before) ++ blank :: after).
    change (first :: before ++ after) with ((first :: before) ++ after).
    rewrite !each_rows_app.
    destruct (each_rows no_series (first :: before)) as [acc|e]; [|reflexivity].
    cbn [bind each_rows]. rewrite each_row_without_cells by assumption. reflexivity. }
  reflexivity.
Qed.

Lemma rows_without_cells_are_skipped_witness :
  normalize (rawData_of (table_of [blank_week_row; JNull; numeric_label_row; JObj []]))
  = normalize (rawData_of (table_of [blank_week_row; numeric_label_row])).
Proof.
  transitivity (normalize (rawData_of (table_of [blank_week_row; numeric_label_row;
                                                  JObj []]))).
  - exact (rows_without_cells_are_skipped blank_week_row JNull []
             [numeric_label_row; JObj []] eq_refl).
  - exact (rows_without_cells_are_skipped blank_week_row (JObj []) [numeric_label_row] []
             eq_refl).
Defined.

(** X4.  The value columns are gated on type alone: a row adds no revenue
    entry unless its revenue cell holds a number, no activity entry unless
    its count cell does, and no source entry unless its rate cell does,
    however the row is labelled.  Amounts kept as text are not read. *)
Theorem value_columns_are_strict (acc acc' : Series) (r : json) :
  each_row acc r = Ok acc' ->
  (as_number (get (index (cells_of r) 6) (lit "v")) = None ->
   s_revenueTrend acc' = s_revenueTrend acc) /\
  (as_number (get (index (cells_of r) 8) (lit "v")) = None ->
   s_weeklyConversations acc' = s_weeklyConversations acc) /\
  (as_number (get (index (cells_of r) 12) (lit "v")) = None ->
   s_sourceConversions acc' = s_sourceConversions acc).
Proof.
  intros H. destruct (each_row_contributes acc acc' r H) as (H1 & H2 & H3).
  unfold row_revenue, revenue_entry in H1. unfold row_weekly, weekly_entry in H2.
  unfold row_source, source_entry in H3.
  split; [|split]; intros E.
  - rewrite H1, E. destruct (str_truthy (label_of r 5)); apply app_nil_r.
  - rewrite H2, E. destruct (str_truthy (label_of r 7)); apply app_nil_r.
  - rewrite H3, E. destruct (str_truthy (label_of r 9)); apply app_nil_r.
Qed.

Lemma value_columns_are_strict_witness : each_row no_series textual_row = Ok no_series.
Proof.
  assert (exists acc', each_row no_series textual_row = Ok acc') as [acc' H]
      by (eexists; vm_compute; reflexivity).
  destruct (value_columns_are_strict no_series acc' textual_row H) as (H1 & H2 & H3).
  rewrite H. f_equal. destruct acc' as [a b c].
  cbn in H1, H2, H3. rewrite (H1 eq_refl), (H2 eq_refl), (H3 eq_refl). reflexivity.
Defined.

(** ** How a pass can fail, and what a pass that succeeds guarantees *)

Lemma each_rows_Throw_unprintable (rows : list json) (acc : Series) (e : exn) :
  each_rows acc rows = Throw e -> forallb labels_printable rows = false.
Proof.
  intros H. destruct (forallb labels_printable rows) eqn:E; [|reflexivity].
  destruct (each_rows_total rows acc E) as [acc' H']. rewrite H' in H. discriminate H.
Qed.

(** X5.  The normalizer has exactly four ways to fail: reading [table] of a
    null document, the empty-dataset error when [rows] is falsy or has
    length 0, the type error of calling [forEach] on something that is not
    an array, and the type error of [String()] on a label that is an
    object with its own [toString]. *)
Theorem normalize_failures (rawData : json) (e : exn) :
  normalize rawData = Throw e ->
  (rawData = JNull /\
   e = TypeError (lit "Cannot read properties of null (reading 'table')")) \/
  (rawData <> JNull /\
   (truthy (rows_of rawData) = false \/ strict_eq_zero (length_of (rows_of rawData)) = true) /\
   e = EmptyDatasetError) \/
  ((forall items, rows_of rawData <> Some (JArr items)) /\
   e = TypeError (lit "rows.forEach is not a function")) \/
  ((exists items, rows_of rawData = Some (JArr items) /\
                  forallb labels_printable items = false) /\
   e = TypeError (lit "Cannot convert object to primitive value")).
Proof.
  intros H. destruct (json_null_dec rawData) as [->|Hnn].
  - left. split; [reflexivity|]. inversion H. reflexivity.
  - right. rewrite normalize_not_null in H by assumption.
    destruct (truthy (rows_of rawData)) eqn:Et; cbn [negb orb] in H.
    + destruct (strict_eq_zero (length_of (rows_of rawData))) eqn:Ez.
      * left. inversion H. split; [assumption|]. split; [right|]; reflexivity.
      * right. destruct (forEach _ _) as [series|e'] eqn:E; [discriminate H|].
        cbn [bind] in H. inversion H; subst e'. unfold forEach in E.
        destruct (rows_of rawData) as [[| | | |items|]|] eqn:Er;
          try (left; split; [intros items; discriminate | inversion E; reflexivity]).
        right. split.
        -- exists items. split; [reflexivity|].
           exact (each_rows_Throw_unprintable items no_series e E).
        -- exact (each_rows_Throw items no_series e E).
    + left. inversion H. split; [assumption|]. split; [left|]; reflexivity.
Qed.

Lemma normalize_failures_witness :
  normalize (rawData_of (table_of [row [JNull; JNull; JNull; JNull; JNull;
                                        cell (JObj [(lit "toString", num 1)])]]))
  = Throw (TypeError (lit "Cannot convert object to primitive value")) /\
  normalize (rawData_of (JObj [(lit "rows", num 5)]))
  = Throw (TypeError (lit "rows.forEach is not a function")) /\
  normalize (rawData_of (JObj [(lit "rows", JObj [(lit "length", num 0)])]))
  = Throw EmptyDatasetError.
Proof.
  split; [|split].
  - destruct (normalize (rawData_of (table_of [row [JNull; JNull; JNull; JNull; JNull;
                                          cell (JObj [(lit "toString", num 1)])]])))
      as [n|e] eqn:E; [vm_compute in E; discriminate E|].
    destruct (normalize_failures _ e E)
      as [[Hn _] | [(_ & [Hf|Hz] & _) | [(Hnot & _) | (_ & ->)]]].
    + discriminate Hn.
    + discriminate Hf.
    + vm_compute in Hz. discriminate Hz.
    + exfalso. eapply Hnot. reflexivity.
    + reflexivity.
  - destruct (normalize (rawData_of (JObj [(lit "rows", num 5)]))) as [n|e] eqn:E;
      [vm_compute in E; discriminate E|].
    destruct (normalize_failures _ e E)
      as [[Hn _] | [(_ & [Hf|Hz] & _) | [(_ & ->) | ((items & Hrows & _) & _)]]].
    + discriminate Hn.
    + vm_compute in Hf. discriminate Hf.
    + discriminate Hz.
    + reflexivity.
    + discriminate Hrows.
  - destruct (normalize (rawData_of (JObj [(lit "rows", JObj [(lit "length", num 0)])])))
      as [n|e] eqn:E; [vm_compute in E; discriminate E|].
    destruct (normalize_failures _ e E)
      as [[Hn _] | [(_ & _ & ->) | [(_ & ->) | ((items & Hrows & _) & _)]]].
    + discriminate Hn.
    + reflexivity.
    + vm_compute in E. discriminate E.
    + discriminate Hrows.
Defined.

Lemma or_one_truthy (x : number) : number_truthy (or_one x) = true.
Proof. unfold or_one. destruct (number_truthy x) eqn:E; [exact E | reflexivity]. Qed.

Lemma fetchData_try_Ok (r : fetched) (n : Normalized) :
  fetchData_try r = Ok n ->
  exists body rawData,
    r = Response true (Ok body) /\
    parseGoogleSheetsJSON body = Ok rawData /\ normalize rawData = Ok n.
Proof.
  destruct r as [reason|[|] [body|reason]]; cbn [fetchData_try negb bind]; try discriminate.
  intros H. destruct (parseGoogleSheetsJSON body) as [rawData|e] eqn:E; [|discriminate H].
  exists body, rawData. repeat split; assumption.
Qed.

(** X6.  Whatever text the endpoint returns, a pass that succeeds publishes
    numbers a consumer can divide by and compare: the client load is never
    zero (nor NaN), the conversion rate and every win rate are at least 0,
    and no summary field is NaN. *)
Theorem fetched_numbers_are_sane (r : fetched) (n : Normalized) :
  fetchData_try r = Ok n ->
  number_truthy (activeClientLoad (n_kpis n)) = true /\
  nonneg (conversionRate (n_kpis n)) /\
  Forall (fun e => nonneg (SourceConversion.rate e)) (s_sourceConversions (n_series n)) /\
  totalOpportunities (n_kpis n) <> NaN /\
  qualifiedConversations (n_kpis n) <> NaN /\
  convertedClients (n_kpis n) <> NaN /\
  totalRevenue (n_kpis n) <> NaN.
Proof.
  intros H. destruct (fetchData_try_Ok r n H) as (body & rawData & _ & Hparse & Hrun).
  pose proof (parsed_payload_no_nan body rawData Hparse) as Hnan.
  destruct (normalize_Ok rawData n Hrun) as [Hk Hloop].
  assert (no_nan_value (rows_of rawData) = true) as Hrows
      by (unfold rows_of; apply no_nan_get, (no_nan_get (Some rawData)), Hnan).
  pose proof (no_nan_firstRowCells _ Hrows) as Hcells.
  rewrite Hk. cbn [kpis_of activeClientLoad conversionRate totalOpportunities
                     qualifiedConversations convertedClients totalRevenue].
  split; [apply or_one_truthy|].
  split; [apply Math_abs_nonneg, getNum_not_nan, no_nan_index, Hcells|].
  split.
  - destruct (forEach_Ok _ _ _ Hloop) as (items & Hitems & Heach).
    rewrite Hitems in Hrows.
    apply (each_rows_rates items no_series (n_series n) Hrows Heach). constructor.
  - repeat split; apply getNum_not_nan, no_nan_index, Hcells.
Qed.

Lemma fetched_numbers_are_sane_witness :
  exists n, fetchData_try (Response true (Ok roundtrip_text)) = Ok n /\
            number_truthy (activeClientLoad (n_kpis n)) = true /\
            nonneg (conversionRate (n_kpis n)).
Proof.
  assert (exists n, fetchData_try (Response true (Ok roundtrip_text)) = Ok n) as [n H]
      by (eexists; vm_compute; reflexivity).
  exists n. split; [exact H|].
  destruct (fetched_numbers_are_sane _ n H) as (H1 & H2 & _).
  split; assumption.
Defined.

(** ** The component over time *)

(** One event either leaves the five data fields alone or replaces them all
    by those of the pass it completes. *)
Lemma handle_data (a : App) (e : event) :
  data_of (state (handle a e))
  = match pass_of a e with
    | Some p => data_of_pass p
    | None => data_of (state a)
    end.
Proof.
  destruct e as [| | |p|r now]; cbn [handle pass_of].
  - reflexivity.
  - destruct (render (state a)); reflexivity.
  - destruct (render (state a)); reflexivity.
  - destruct (render (state a)); reflexivity.
  - destruct (pending a) as [|k]; [reflexivity|]. cbn [state]. unfold fetchData_end.
    destruct (fetchData_try r) as [n|err]; reflexivity.
Qed.

Lemma handle_all_data (es : list event) :
  forall (a : App) (seen : option pass),
    data_of (state a) = data_of_latest seen ->
    data_of (state (handle_all a es)) = data_of_latest (latest_pass a es seen).
Proof.
  unfold handle_all.
  induction es as [|e rest IH]; intros a seen H; [exact H|].
  cbn [fold_left latest_pass]. apply IH. rewrite handle_data.
  destruct (pass_of a e) as [p|]; [reflexivity | exact H].
Qed.

(** The latest pass of a run is a settled event of the run: a suspended
    call resumed with a response that normalizes to it. *)
Lemma latest_pass_event (es : list event) :
  forall (a : App) (seen : option pass) (p : pass),
    latest_pass a es seen = Some p ->
    seen = Some p \/
    exists before r after,
      es = before ++ Settled r (snd p) :: after /\
      pending (handle_all a before) <> 0%nat /\
      fetchData_try r = Ok (fst p).
Proof.
  induction es as [|e rest IH]; intros a seen p H; [left; exact H|].
  cbn [latest_pass] in H.
  destruct (IH _ _ _ H) as [Hseen | (before & r & after & E & Hp & Hr)].
  - destruct (pass_of a e) as [q|] eqn:Eq; [|left; exact Hseen].
    right. inversion Hseen; subst q.
    destruct e as [| | |f|r now]; try discriminate Eq. cbn [pass_of] in Eq.
    destruct (pending a) as [|k] eqn:Ek; [discriminate Eq|].
    destruct (fetchData_try r) as [n|err] eqn:Er; [|discriminate Eq].
    inversion Eq; subst p. exists [], r, rest. cbn [snd fst app handle_all fold_left].
    split; [reflexivity|]. split; [rewrite Ek; discriminate | exact Er].
  - right. exists (e :: before), r, after. split; [rewrite E; reflexivity|].
    split; [exact Hp | exact Hr].
Qed.

(** X7.  At every moment of the component's life the summary, the three
    series and [lastUpdated] are, all five together, those of the latest
    pass that settled with success, or all five still at their initial
    values when none has: no sequence of clicks, timer ticks and settled
    fetches mixes the data of two passes, or shows any of a failed one.
    That pass is an event of the run: a suspended call of [fetchData] that
    resumed with a response which parses and normalizes to the data
    shown, at the time shown. *)
Theorem data_always_from_one_pass (es : list event) :
  data_of (state (handle_all mount es)) = data_of_latest (latest_pass mount es None) /\
  match latest_pass mount es None with
  | Some p =>
      exists before r after,
        es = before ++ Settled r (snd p) :: after /\
        pending (handle_all mount before) <> 0%nat /\
        fetchData_try r = Ok (fst p)
  | None => True
  end.
Proof.
  split; [apply handle_all_data; reflexivity|].
  destruct (latest_pass mount es None) as [p|] eqn:E; [|exact I].
  destruct (latest_pass_event es mount None p E) as [H|H]; [discriminate H | exact H].
Qed.

Lemma handle_keeps_kpis (a : App) (e : event) :
  kpis (state a) <> None -> kpis (state (handle a e)) <> None.
Proof.
  intros H. destruct e as [| | |p|r now]; cbn [handle].
  - exact H.
  - destruct (render (state a)); exact H.
  - destruct (render (state a)); exact H.
  - destruct (render (state a)); exact H.
  - destruct (pending a); [exact H|]. cbn [state]. unfold fetchData_end.
    destruct (fetchData_try r); [discriminate | exact H].
Qed.

(** X8.  Once a pass has succeeded the summary is never taken away again:
    whatever happens afterwards (failed passes included) the dashboard
    stays on screen, and neither the loading screen nor the error screen
    comes back. *)
Theorem dashboard_stays (a : App) (es : list event) :
  kpis (state a) <> None ->
  kpis (state (handle_all a es)) <> None /\
  render (state (handle_all a es)) = Dashboard.
Proof.
  intros H.
  assert (kpis (state (handle_all a es)) <> None) as K.
  { unfold handle_all. revert a H. induction es as [|e rest IH]; intros a H; [exact H|].
    cbn [fold_left]. apply IH, handle_keeps_kpis, H. }
  split; [exact K|]. unfold render.
  destruct (kpis (state (handle_all a es))); [|contradiction K; reflexivity].
  cbn [is_null]. rewrite !andb_false_r. reflexivity.
Qed.

Lemma dashboard_stays_witness :
  render (state (handle_all loaded
                   [ClickRefresh; Settled (Rejected NotAnError) 1700000300000;
                    Tick; Settled (Response false (Ok [])) 1700000600000])) = Dashboard.
Proof.
  apply (dashboard_stays loaded). vm_compute. discriminate.
Defined.

(** What is on screen does not depend on the filter. *)
Lemma render_fetch_event_filter (a : App) (p : jsstring) (e : event) :
  fetch_event e = true ->
  render (state a) = Dashboard ->
  handle (handle a (SelectFilter p)) e
  = {| state := {| kpis := kpis (state (handle a e));
                   revenueTrend := revenueTrend (state (handle a e));
                   weeklyConversations := weeklyConversations (state (handle a e));
                   sourceConversions := sourceConversions (state (handle a e));
                   loading := loading (state (handle a e));
                   error := error (state (handle a e));
                   lastUpdated := lastUpdated (state (handle a e));
                   timeFilter := p |};
       pending := pending (handle a e) |}.
Proof.
  intros He Hd. destruct a as [s k]. cbn [state] in Hd.
  cbn [handle state]. rewrite Hd.
  destruct e as [| | |q|r now]; try discriminate He; cbn [handle state pending].
  - reflexivity.
  - change (render _) with (render s). rewrite Hd. reflexivity.
  - change (render _) with (render s). rewrite Hd. reflexivity.
  - destruct k; [reflexivity|]. cbn [state pending]. unfold fetchData_end.
    destruct (fetchData_try r); reflexivity.
Qed.

(** X9.  No call or continuation of [fetchData] changes the time filter.
    A filter chosen on the dashboard, while a pass is in flight or not,
    is still the chosen one after the next step of [fetchData]; and when
    that step leaves the dashboard on screen, choosing the filter before
    it or after it leads to the same state. *)
Theorem filter_survives_fetch (a : App) (p : jsstring) (e : event) :
  fetch_event e = true ->
  timeFilter (state (handle a e)) = timeFilter (state a) /\
  (render (state a) = Dashboard ->
   timeFilter (state (handle (handle a (SelectFilter p)) e)) = p /\
   (render (state (handle a e)) = Dashboard ->
    handle (handle a (SelectFilter p)) e = handle (handle a e) (SelectFilter p))).
Proof.
  intros He. split.
  - destruct a as [s k].
    destruct e as [| | |q|r now]; try discriminate He; cbn [handle state pending].
    + reflexivity.
    + destruct (render s); reflexivity.
    + destruct (render s); reflexivity.
    + destruct k; [reflexivity|]. cbn [state]. unfold fetchData_end.
      destruct (fetchData_try r); reflexivity.
  - intros Hd. rewrite (render_fetch_event_filter a p e He Hd). split; [reflexivity|].
    intros Hd'. cbn [handle]. rewrite Hd'. reflexivity.
Qed.

Lemma filter_survives_fetch_witness :
  let refreshing := handle loaded ClickRefresh in
  let settled := Settled (Response true (Ok roundtrip_text)) 1700000600000 in
  timeFilter (state (handle_all loaded [ClickRefresh; SelectFilter (lit "30D"); settled]))
  = lit "30D" /\
  handle (handle refreshing (SelectFilter (lit "30D"))) settled
  = handle (handle refreshing settled) (SelectFilter (lit "30D")).
Proof.
  cbv zeta. unfold handle_all. cbn [fold_left].
  destruct (filter_survives_fetch (handle loaded ClickRefresh) (lit "30D")
              (Settled (Response true (Ok roundtrip_text)) 1700000600000) eq_refl)
    as [_ H].
  destruct (H eq_refl) as [Hp Hc]. split; [exact Hp | exact (Hc eq_refl)].
Defined.

(** X10.  The first pass decides the first screen.  The component mounts
    on the loading screen with one fetch in flight.  If that pass succeeds
    the dashboard appears.  If it fails with a message, the error screen
    appears, and its retry button brings the loading screen back with one
    fetch in flight.  If it fails with an empty message, the error screen
    is skipped and the dashboard appears without data. *)
Theorem first_pass_decides_first_screen (r : fetched) (now : Date) :
  render (state mount) = LoadingScreen /\ pending mount = 1%nat /\
  (forall n, fetchData_try r = Ok n ->
             render (state (handle mount (Settled r now))) = Dashboard) /\
  (forall e, fetchData_try r = Throw e -> catch_message e <> [] ->
             render (state (handle mount (Settled r now))) = ErrorScreen /\
             render (state (handle_all mount [Settled r now; ClickRetry])) = LoadingScreen /\
             pending (handle_all mount [Settled r now; ClickRetry]) = 1%nat) /\
  (forall e, fetchData_try r = Throw e -> catch_message e = [] ->
             render (state (handle mount (Settled r now))) = Dashboard /\
             kpis (state (handle mount (Settled r now))) = None).
Proof.
  split; [reflexivity|]. split; [reflexivity|].
  unfold handle_all. cbn [fold_left handle mount call_fetchData pending state].
  unfold fetchData_end.
  split; [|split].
  - intros n ->. reflexivity.
  - intros e -> Hm. unfold render at 1 2. cbn [loading kpis error is_null andb error_truthy].
    destruct (catch_message e); [contradiction Hm; reflexivity|].
    cbn [str_truthy]. repeat split.
  - intros e -> Hm. rewrite Hm. split; reflexivity.
Qed.

Lemma first_pass_decides_first_screen_witness :
  render (state (handle mount (Settled (Response true (Ok roundtrip_text)) 1700000000000)))
  = Dashboard /\
  render (state (handle mount (Settled (Response false (Ok [])) 1700000000000)))
  = ErrorScreen /\
  render (state (handle mount (Settled (Rejected (Error [])) 1700000000000))) = Dashboard.
Proof.
  split; [|split].
  - destruct (first_pass_decides_first_screen (Response true (Ok roundtrip_text))
                1700000000000) as (_ & _ & Hok & _).
    assert (exists n, fetchData_try (Response true (Ok roundtrip_text)) = Ok n) as [n H]
        by (eexists; vm_compute; reflexivity).
    exact (Hok n H).
  - destruct (first_pass_decides_first_screen (Response false (Ok [])) 1700000000000)
      as (_ & _ & _ & Hfail & _).
    apply (Hfail TransportError eq_refl). discriminate.
  - destruct (first_pass_decides_first_screen (Rejected (Error [])) 1700000000000)
      as (_ & _ & _ & _ & Hblank).
    apply (Hblank (Error []) eq_refl eq_refl).
Defined.

(** ** The two versions of the normalizer *)

Lemma each_row_versions (old : Legacy.Series) (new : Series) (r : json) :
  series_same_up_to_sign old new ->
  match each_row new r, Legacy.each_row old r with
  | Ok new', Ok old' => series_same_up_to_sign old' new'
  | Throw e, Throw e' => e = e'
  | _, _ => False
  end.
Proof.
  intros (Hrev & Hweek & Hsrc). unfold each_row, Legacy.each_row.
  destruct (negb (truthy (get (Some r) (lit "c")))); [repeat split; assumption|].
  destruct (getStr (index (get (Some r) (lit "c")) 5)) as [month|e5]; [|reflexivity].
  destruct (getStr (index (get (Some r) (lit "c")) 7)) as [week|e7]; [|reflexivity].
  destruct (getStr (index (get (Some r) (lit "c")) 9)) as [source|e9]; [|reflexivity].
  cbn [bind].
  destruct (str_truthy month), (as_number (get (index (get (Some r) (lit "c")) 6) (lit "v")));
    destruct (str_truthy week), (as_number (get (index (get (Some r) (lit "c")) 8) (lit "v")));
    destruct (str_truthy source),
             (as_number (get (index (get (Some r) (lit "c")) 12) (lit "v")));
    unfold series_same_up_to_sign;
    cbn [s_revenueTrend s_weeklyConversations s_sourceConversions push_revenue push_weekly
         push_source Legacy.s_revenueTrend Legacy.s_weeklyConversations
         Legacy.s_sourceConversions];
    rewrite ?map_app, ?Hrev, ?Hweek, ?Hsrc; repeat split.
Qed.

Lemma each_rows_versions (rows : list json) :
  forall old new,
    series_same_up_to_sign old new ->
    match each_rows new rows, Legacy.each_rows old rows with
    | Ok new', Ok old' => series_same_up_to_sign old' new'
    | Throw e, Throw e' => e = e'
    | _, _ => False
    end.
Proof.
  induction rows as [|r rest IH]; intros old new H; [exact H|].
  cbn [each_rows Legacy.each_rows].
  pose proof (each_row_versions old new r H) as Hr.
  destruct (each_row new r) as [new1|e], (Legacy.each_row old r) as [old1|e'];
    try contradiction; cbn [bind]; [|exact Hr].
  apply IH, Hr.
Qed.

(** X11.  The older normalizer (root App.tsx) and the current one succeed
    on the same payloads and fail on the same payloads.  When they succeed
    they agree on the summary counts, the revenue total, the revenue and
    activity series and on every source entry's name and counts; the
    current conversion rate and win rates are the absolute values of the
    older ones.  When they fail it is for the same reason; only the text
    of the empty-dataset message differs. *)
Theorem normalizers_agree_up_to_sign (rawData : json) :
  match normalize rawData, Legacy.normalize rawData with
  | Ok new, Ok old => same_up_to_sign old new
  | Throw e, Throw e' =>
      (e = EmptyDatasetError /\ e' = Error (lit "No data found.")) \/ e = e'
  | _, _ => False
  end.
Proof.
  unfold normalize, Legacy.normalize.
  destruct (member (Some rawData) (lit "table")) as [table|e]; cbn [bind];
    [|right; reflexivity].
  destruct (orb _ _); [left; split; reflexivity|].
  unfold forEach, Legacy.forEach.
  destruct (get table (lit "rows")) as [[| | | |items|]|] eqn:Erows;
    try (right; reflexivity).
  assert (series_same_up_to_sign Legacy.no_series no_series) as H0 by (repeat split).
  pose proof (each_rows_versions items Legacy.no_series no_series H0) as H.
  destruct (each_rows no_series items) as [new|e],
           (Legacy.each_rows Legacy.no_series items) as [old|e'];
    try contradiction; cbn [bind]; [|right; exact H].
  destruct H as (Hrev & Hweek & Hsrc).
  unfold same_up_to_sign. cbn. repeat split; assumption.
Qed.

(** ** [formatPercent] *)

Lemma str_eqb_eq (a b : jsstring) : str_eqb a b = true -> a = b.
Proof.
  revert b. induction a as [|x a' IH]; intros [|y b'] H; try discriminate H; [reflexivity|].
  cbn [str_eqb] in H. apply andb_prop in H. destruct H as [Hx Hr].
  apply N.eqb_eq in Hx. subst y. f_equal. apply IH, Hr.
Qed.

(** For a number at or above 1 the search for the magnitude passes every
    negative exponent. *)
Lemma magnitude_skips_negative (m : positive) (e : Z) (j : nat) :
  forall fuel, at_least_one m e = true ->
               magnitude (j + fuel) m e (- Z.of_nat j) = magnitude fuel m e 0.
Proof.
  induction j as [|j IH]; intros fuel H; [reflexivity|].
  cbn [Nat.add magnitude].
  assert (0 < 2 ^ Z.max (- e) 0) as Hden by (apply Z.pow_pos_nonneg; lia).
  assert (1 <= 10 ^ Z.max (- - Z.of_nat (S j)) 0) as Hten
      by (apply Z.lt_pred_le, Z.pow_pos_nonneg; lia).
  unfold at_least_one in H. apply Z.leb_le in H.
  replace (Z.max (- Z.of_nat (S j)) 0) with 0 by lia.
  change (10 ^ 0) with 1. rewrite Z.mul_1_r.
  destruct (Z.ltb_spec (Z.pos m * 2 ^ Z.max e 0 * 10 ^ Z.max (- - Z.of_nat (S j)) 0)
                       (2 ^ Z.max (- e) 0)) as [Hlt|_]; [nia|].
  replace (- Z.of_nat (S j) + 1) with (- Z.of_nat j) by lia.
  apply IH. apply Z.leb_le. exact H.
Qed.

Lemma Number_toString_from_one (m : positive) (e : Z) :
  at_least_one m e = true ->
  Number_toString (S754_finite false m e) = toString_from_one m e.
Proof.
  intros H. unfold Number_toString, toString_from_one.
  assert (magnitude 700 m e (-330) = magnitude 370 m e 0) as ->
      by exact (magnitude_skips_negative m e 330 370 H).
  reflexivity.
Qed.

Lemma percent_text_ok_sound (k : Z) :
  percent_text_ok k = true ->
  formatPercent (number_of_decimal false k (-2)) = digits k ++ lit "%".
Proof.
  unfold percent_text_ok, formatPercent.
  destruct (Math_round _) as [s|s| |[|] m e]; try discriminate.
  - intros H. apply str_eqb_eq in H. rewrite <- H. reflexivity.
  - intros H. apply andb_prop in H. destruct H as [H1 H2].
    rewrite (Number_toString_from_one m e H1). apply str_eqb_eq, H2.
Qed.

Lemma percent_texts_checked : forallb percent_text_ok (percentages 1000) = true.
Proof. vm_compute. reflexivity. Qed.

(** X12.  [formatPercent] shows a ratio given in whole hundredths as that
    whole percentage: for every k from 0 to 1000, the number nearest to
    k/100 is shown as the decimal digits of k followed by the percent
    sign.  Neither the binary rounding of k/100 nor that of the
    multiplication by 100 ever shifts the result to a neighbouring
    percentage. *)
Theorem formatPercent_whole_percentages (k : Z) :
  0 <= k <= 1000 ->
  formatPercent (number_of_decimal false k (-2)) = digits k ++ lit "%".
Proof.
  intros Hk. apply percent_text_ok_sound.
  pose proof percent_texts_checked as H. rewrite forallb_forall in H.
  apply (H k). unfold percentages. apply in_map_iff.
  exists (Z.to_nat k). split; [lia|]. apply in_seq. lia.
Qed.

Lemma formatPercent_whole_percentages_witness :
  formatPercent (number_of_decimal false 57 (-2)) = lit "57%" /\
  formatPercent (number_of_decimal false 7 (-2)) = lit "7%".
Proof.
  split.
  - exact (formatPercent_whole_percentages 57 ltac:(lia)).
  - exact (formatPercent_whole_percentages 7 ltac:(lia)).
Defined.

(** ** [topSource] *)

Lemma iter_xO_mul (m d : positive) : Zpos (Pos.iter xO m d) = Zpos m * 2 ^ Zpos d.
Proof.
  induction d as [|d IH] using Pos.peano_ind.
  - simpl. lia.
  - rewrite Pos.iter_succ, Pos2Z.inj_xO, IH, Pos2Z.inj_succ, Z.pow_succ_r by lia. ring.
Qed.

(** The mantissa aligned to a smaller exponent. *)
Lemma shl_align_value (m : positive) (e e' : Z) :
  e' <= e -> Zpos (fst (shl_align m e e')) = Zpos m * 2 ^ (e - e').
Proof.
  intros H. unfold shl_align. destruct (e' - e) as [|d|d] eqn:E; cbn [fst]; try lia.
  - replace (e - e') with 0 by lia. lia.
  - rewrite iter_xO_mul. f_equal. f_equal. lia.
Qed.

Lemma shr_fexp_positive_low (m e : Z) (l : location) :
  0 < m -> emin prec emax <= e ->
  let '(mrs, e') := shr_fexp prec emax m e l in
  0 < shr_m mrs /\ emin prec emax <= e'.
Proof.
  intros Hm He. unfold shr_fexp, shr, fexp.
  destruct (Zdigits2_bounds m Hm) as [Hlo Hhi].
  assert (0 < Zdigits2 m) as Hd by (destruct m; simpl; lia).
  assert (shr_m (shr_record_of_loc m l) = m) as Em by (destruct l as [|[]]; reflexivity).
  destruct (Z.max (Zdigits2 m + e - prec) (emin prec emax) - e) as [|n|n] eqn:En.
  - rewrite Em. lia.
  - rewrite iter_shr_m by lia. rewrite Em.
    assert (Z.pos n = Zdigits2 m - prec) as En' by lia.
    assert (2 ^ (Zdigits2 m - 1) = 2 ^ (prec - 1) * 2 ^ Z.pos n) as Epow.
    { rewrite <- Z.pow_add_r by (unfold prec; lia). f_equal. lia. }
    assert (0 < 2 ^ Z.pos n) by (apply Z.pow_pos_nonneg; lia).
    assert (2 ^ (prec - 1) <= m / 2 ^ Z.pos n) as Hq.
    { apply Z.div_le_lower_bound; [lia|]. rewrite Z.mul_comm. lia. }
    assert (0 < 2 ^ (prec - 1)) by (apply Z.pow_pos_nonneg; unfold prec; lia).
    lia.
  - rewrite Em. lia.
Qed.

(** Rounding a positive mantissa whose exponent is in range keeps the sign
    and yields no zero. *)
Lemma binary_round_aux_keeps_sign (sx : bool) (mx ex : Z) (lx : location) :
  0 < mx -> emin prec emax <= ex ->
  (exists m e, binary_round_aux prec emax sx mx ex lx = S754_finite sx m e) \/
  binary_round_aux prec emax sx mx ex lx = S754_infinity sx.
Proof.
  intros Hm He. unfold binary_round_aux.
  pose proof (shr_fexp_positive_low mx ex lx Hm He) as H1.
  destruct (shr_fexp prec emax mx ex lx) as [mrs' e']. destruct H1 as (H1 & H1e).
  pose proof (round_nearest_even_bounds (shr_m mrs') (loc_of_shr_record mrs')) as Hr.
  set (m2 := round_nearest_even (shr_m mrs') (loc_of_shr_record mrs')) in *.
  pose proof (shr_fexp_positive_low m2 e' loc_Exact ltac:(lia) H1e) as H2.
  destruct (shr_fexp prec emax m2 e' loc_Exact) as [mrs'' e'']. destruct H2 as (H2 & _).
  destruct (shr_m mrs'') as [|p|p]; try lia.
  destruct (Z.leb e'' (emax - prec)); [left; eexists; eexists; reflexivity | right; reflexivity].
Qed.

Lemma binary_round_keeps_sign (sx : bool) (m : positive) (e : Z) :
  emin prec emax <= e ->
  (exists m' e', binary_round prec emax sx m e = S754_finite sx m' e') \/
  binary_round prec emax sx m e = S754_infinity sx.
Proof.
  intros He. unfold binary_round.
  destruct (shl_align m e (fexp prec emax (Z.pos (digits2_pos m) + e))) as [mz ez] eqn:E.
  apply binary_round_aux_keeps_sign; [lia|].
  unfold shl_align in E.
  destruct (fexp prec emax (Z.pos (digits2_pos m) + e) - e) as [|d|d] eqn:Ed;
    inversion E; subst; try lia.
  unfold fexp. lia.
Qed.

(** The sign of the rounded value of an integer in units of [2^e]. *)
Lemma binary_normalize_positive (z e : Z) :
  emin prec emax <= e ->
  positive_number (binary_normalize prec emax z e false) = (0 <? z).
Proof.
  intros He. unfold binary_normalize. destruct z as [|p|p].
  - reflexivity.
  - destruct (binary_round_keeps_sign false p e He) as [(m' & e' & ->) | ->]; reflexivity.
  - destruct (binary_round_keeps_sign true p e He) as [(m' & e' & ->) | ->]; reflexivity.
Qed.

Lemma real_number_finite (s : bool) (m : positive) (e : Z) :
  real_number (S754_finite s m e) = true ->
  emin prec emax <= e /\ Zpos m < 2 ^ prec /\ e <= emax - prec.
Proof.
  unfold real_number, valid_binary, bounded, canonical_mantissa, fexp. intros H.
  apply andb_prop in H. destruct H as [Hc Hb].
  apply Z.eqb_eq in Hc. apply Z.leb_le in Hb.
  destruct (Zdigits2_bounds (Zpos m) ltac:(lia)) as [_ Hup]. simpl Zdigits2 in Hup.
  assert (Z.pos (digits2_pos m) <= prec) as Hd by lia.
  pose proof (Z.pow_le_mono_r 2 _ _ ltac:(lia) Hd).
  repeat split; lia.
Qed.

Lemma place_finite_bound (s : bool) (m : positive) (e : Z) :
  real_number (S754_finite s m e) = true ->
  - 2 ^ 3000 < place (S754_finite s m e) < 2 ^ 3000.
Proof.
  intros H. destruct (real_number_finite s m e H) as (He & Hm & Hmax).
  cbn [place].
  assert (0 < 2 ^ (e - emin prec emax)) as Hp by (apply Z.pow_pos_nonneg; lia).
  assert (2 ^ (e - emin prec emax) <= 2 ^ 2045) as Hq
      by (apply Z.pow_le_mono_r; unfold emin, emax, prec in *; lia).
  assert (Zpos m * 2 ^ (e - emin prec emax) < 2 ^ prec * 2 ^ 2045) as Hlt by nia.
  assert (2 ^ prec * 2 ^ 2045 <= 2 ^ 3000) as Hle.
  { rewrite <- Z.pow_add_r by (unfold prec; lia). apply Z.pow_le_mono_r; unfold prec; lia. }
  destruct s; lia.
Qed.

Lemma positive_number_by_sign :
  (forall s, positive_number (S754_zero s) = false) /\
  (forall s, positive_number (S754_infinity s) = negb s) /\
  (forall s m e, positive_number (S754_finite s m e) = negb s).
Proof. repeat split; intros []; reflexivity. Qed.

Ltac order_by_sign :=
  destruct positive_number_by_sign as (Pz & Pi & Pf);
  rewrite ?Pz, ?Pi, ?Pf; cbn [negb];
  match goal with
  | |- true = _ => symmetry; apply Z.ltb_lt
  | |- false = _ => symmetry; apply Z.ltb_ge
  end.

(** The sign of a difference is the order of the places. *)
Lemma number_sub_positive (x y : number) :
  real_number x = true -> real_number y = true ->
  positive_number (number_sub x y) = (place y <? place x).
Proof.
  intros Hx Hy.
  assert (0 < 2 ^ 3000) as Hbig by (apply Z.pow_pos_nonneg; lia).
  destruct x as [sx|sx| |sx mx ex], y as [sy|sy| |sy my ey];
    try discriminate Hx; try discriminate Hy.
  - destruct sx, sy; reflexivity.
  - destruct sx, sy; cbn [number_sub SFsub place]; order_by_sign; lia.
  - destruct (real_number_finite sy my ey Hy) as (He & _).
    assert (0 < 2 ^ (ey - emin prec emax)) by (apply Z.pow_pos_nonneg; lia).
    destruct sx, sy; cbn [number_sub SFsub place]; order_by_sign; nia.
  - destruct sx, sy; cbn [number_sub SFsub place]; order_by_sign; lia.
  - destruct sx, sy; cbn [number_sub SFsub place Bool.eqb]; try reflexivity;
      order_by_sign; lia.
  - pose proof (place_finite_bound sy my ey Hy) as Hb. cbn [place] in Hb.
    destruct sx, sy; cbn [number_sub SFsub place]; order_by_sign; lia.
  - destruct (real_number_finite sx mx ex Hx) as (He & _).
    assert (0 < 2 ^ (ex - emin prec emax)) by (apply Z.pow_pos_nonneg; lia).
    destruct sx, sy; cbn [number_sub SFsub place]; order_by_sign; nia.
  - pose proof (place_finite_bound sx mx ex Hx) as Hb. cbn [place] in Hb.
    destruct sx, sy; cbn [number_sub SFsub place]; order_by_sign; lia.
  - destruct (real_number_finite sx mx ex Hx) as (Hex & _).
    destruct (real_number_finite sy my ey Hy) as (Hey & _).
    cbn [number_sub SFsub]. rewrite binary_normalize_positive by lia.
    pose proof (shl_align_value mx ex (Z.min ex ey) ltac:(lia)) as Ax.
    pose proof (shl_align_value my ey (Z.min ex ey) ltac:(lia)) as Ay.
    set (ax := fst (shl_align mx ex (Z.min ex ey))) in *.
    set (ay := fst (shl_align my ey (Z.min ex ey))) in *.
    set (u := 2 ^ (Z.min ex ey - emin prec emax)).
    assert (0 < u) as Hu by (apply Z.pow_pos_nonneg; lia).
    assert (2 ^ (ex - emin prec emax) = 2 ^ (ex - Z.min ex ey) * u) as Px
        by (unfold u; rewrite <- Z.pow_add_r by lia; f_equal; lia).
    assert (2 ^ (ey - emin prec emax) = 2 ^ (ey - Z.min ex ey) * u) as Py
        by (unfold u; rewrite <- Z.pow_add_r by lia; f_equal; lia).
    cbn [place]. rewrite Px, Py.
    assert (Zpos mx * (2 ^ (ex - Z.min ex ey) * u) = Zpos ax * u) as Qx by (rewrite Ax; ring).
    assert (Zpos my * (2 ^ (ey - Z.min ex ey) * u) = Zpos ay * u) as Qy by (rewrite Ay; ring).
    unfold cond_Zopp.
    destruct sx, sy;
      match goal with
      | |- (0 <? ?a) = (?b <? ?c) =>
          destruct (Z.ltb_spec 0 a), (Z.ltb_spec b c); try reflexivity; nia
      end.
Qed.

Lemma real_number_normal (s : bool) (m : positive) (e : Z) :
  real_number (S754_finite s m e) = true -> emin prec emax < e ->
  2 ^ (prec - 1) <= Zpos m.
Proof.
  unfold real_number, valid_binary, bounded, canonical_mantissa, fexp. intros H He.
  apply andb_prop in H. destruct H as [Hc _]. apply Z.eqb_eq in Hc.
  destruct (Zdigits2_bounds (Zpos m) ltac:(lia)) as [Hlo _]. simpl Zdigits2 in Hlo.
  assert (Z.pos (digits2_pos m) = prec) as Hd by lia.
  rewrite Hd in Hlo. exact Hlo.
Qed.

(** Among binary64 values of one sign the exponent decides first. *)
Lemma smaller_exponent_smaller_place (s1 s2 : bool) (m1 m2 : positive) (e1 e2 : Z) :
  real_number (S754_finite s1 m1 e1) = true ->
  real_number (S754_finite s2 m2 e2) = true ->
  e1 < e2 ->
  Zpos m1 * 2 ^ (e1 - emin prec emax) < Zpos m2 * 2 ^ (e2 - emin prec emax).
Proof.
  intros H1 H2 He.
  destruct (real_number_finite s1 m1 e1 H1) as (L1 & U1 & _).
  pose proof (real_number_normal s2 m2 e2 H2 ltac:(lia)) as N2.
  set (u := 2 ^ (e1 - emin prec emax)).
  assert (0 < u) as Hu by (apply Z.pow_pos_nonneg; lia).
  assert (2 ^ (e2 - emin prec emax) = 2 ^ (e2 - e1) * u) as ->
      by (unfold u; rewrite <- Z.pow_add_r by lia; f_equal; lia).
  assert (2 ^ 1 <= 2 ^ (e2 - e1)) as Hstep by (apply Z.pow_le_mono_r; lia).
  assert (2 ^ prec = 2 ^ (prec - 1) * 2 ^ 1) as Hp
      by (rewrite <- Z.pow_add_r by (unfold prec; lia); f_equal; unfold prec; lia).
  assert (0 < 2 ^ (prec - 1)) by (apply Z.pow_pos_nonneg; unfold prec; lia).
  assert (Zpos m1 < Zpos m2 * 2 ^ (e2 - e1)) by nia.
  nia.
Qed.

(** The comparison of two numbers is the comparison of their places. *)
Lemma SFcompare_place (x y : number) :
  real_number x = true -> real_number y = true ->
  SFcompare x y = Some (place x ?= place y).
Proof.
  intros Hx Hy.
  assert (0 < 2 ^ 3000) as Hbig by (apply Z.pow_pos_nonneg; lia).
  assert (forall c a b,
             match c with Lt => a < b | Eq => a = b | Gt => b < a end ->
             Some c = Some (a ?= b)) as by_order.
  { intros c a b H. f_equal. symmetry. destruct c.
    - apply Z.compare_eq_iff; exact H.
    - apply Z.compare_lt_iff; exact H.
    - apply Z.compare_gt_iff; exact H. }
  destruct x as [sx|sx| |sx mx ex], y as [sy|sy| |sy my ey];
    try discriminate Hx; try discriminate Hy.
  - reflexivity.
  - destruct sx, sy; cbn [SFcompare place]; apply by_order; lia.
  - destruct (real_number_finite sy my ey Hy) as (He & _).
    assert (0 < 2 ^ (ey - emin prec emax)) by (apply Z.pow_pos_nonneg; lia).
    destruct sx, sy; cbn [SFcompare place]; apply by_order; nia.
  - destruct sx, sy; cbn [SFcompare place]; apply by_order; lia.
  - destruct sx, sy; cbn [SFcompare place]; apply by_order; lia.
  - pose proof (place_finite_bound sy my ey Hy) as Hb. cbn [place] in Hb.
    destruct sx, sy; cbn [SFcompare place]; apply by_order; lia.
  - destruct (real_number_finite sx mx ex Hx) as (He & _).
    assert (0 < 2 ^ (ex - emin prec emax)) by (apply Z.pow_pos_nonneg; lia).
    destruct sx, sy; cbn [SFcompare place]; apply by_order; nia.
  - pose proof (place_finite_bound sx mx ex Hx) as Hb. cbn [place] in Hb.
    destruct sx, sy; cbn [SFcompare place]; apply by_order; lia.
  - destruct (real_number_finite sx mx ex Hx) as (Hex & _).
    destruct (real_number_finite sy my ey Hy) as (Hey & _).
    assert (0 < 2 ^ (ex - emin prec emax)) by (apply Z.pow_pos_nonneg; lia).
    assert (0 < 2 ^ (ey - emin prec emax)) by (apply Z.pow_pos_nonneg; lia).
    pose proof (smaller_exponent_smaller_place sx sy mx my ex ey Hx Hy) as Hlt.
    pose proof (smaller_exponent_smaller_place sy sx my mx ey ex Hy Hx) as Hgt.
    destruct sx, sy; cbn [SFcompare place]; apply by_order; try nia.
    + destruct (Z.compare_spec ex ey) as [E|E|E]; [subst ey| |]; try nia.
      change (Pos.compare_cont Eq mx my) with (Pos.compare mx my).
      destruct (Pos.compare_spec mx my) as [M|M|M]; cbn [CompOpp]; [subst my| |]; nia.
    + destruct (Z.compare_spec ex ey) as [E|E|E]; [subst ey| |]; try nia.
      change (Pos.compare_cont Eq mx my) with (Pos.compare mx my).
      destruct (Pos.compare_spec mx my) as [M|M|M]; [subst my| |]; nia.
Qed.

Lemma number_ltb_place (x y : number) :
  real_number x = true -> real_number y = true ->
  number_ltb x y = (place x <? place y).
Proof.
  intros Hx Hy. unfold number_ltb, SFltb, Z.ltb. rewrite (SFcompare_place x y Hx Hy).
  destruct (place x ?= place y); reflexivity.
Qed.

Lemma number_leb_place (x y : number) :
  real_number x = true -> real_number y = true ->
  number_leb x y = (place x <=? place y).
Proof.
  intros Hx Hy. unfold number_leb, SFleb, Z.leb. rewrite (SFcompare_place x y Hx Hy).
  destruct (place x ?= place y); reflexivity.
Qed.

Lemma by_rate_descending_positive (a b : SourceConversion.t) :
  real_number (SourceConversion.rate a) = true ->
  real_number (SourceConversion.rate b) = true ->
  positive_number (by_rate_descending a b) = (rate_place a <? rate_place b).
Proof.
  intros Ha Hb. unfold by_rate_descending, rate_place.
  apply number_sub_positive; assumption.
Qed.

Lemma sort_In {A : Type} (compare : A -> A -> number) (array : list A) (x : A) :
  In x (sort compare array) -> In x array.
Proof.
  revert x. induction array as [|a array IH]; intros x H; [exact H|].
  cbn [sort fold_right] in H. fold (sort compare array) in H.
  assert (forall sorted, In x (sort_insert compare a sorted) -> x = a \/ In x sorted) as Hins.
  { induction sorted as [|b rest IHs]; cbn [sort_insert]; intros Hx.
    - destruct Hx as [<-|[]]. left; reflexivity.
    - destruct (positive_number (compare a b)).
      + destruct Hx as [<-|Hx]; [right; left; reflexivity|].
        destruct (IHs Hx) as [->|Hr]; [left; reflexivity | right; right; exact Hr].
      + destruct Hx as [<-|Hx]; [left; reflexivity | right; exact Hx]. }
  destruct (Hins _ H) as [->|Hr]; [left; reflexivity | right; apply IH; exact Hr].
Qed.

(** The head of the sorted copy: the first of the entries whose rate none
    exceeds. *)
Lemma sort_head_first_best (entries : list SourceConversion.t) :
  real_rates entries = true ->
  match nth_error (sort by_rate_descending entries) 0 with
  | None => entries = []
  | Some top =>
      exists before after,
        entries = before ++ top :: after /\
        (forall e, In e before -> rate_place e < rate_place top) /\
        (forall e, In e after -> rate_place e <= rate_place top)
  end.
Proof.
  induction entries as [|x rest IH]; intros Hreal; [reflexivity|].
  cbn [real_rates forallb] in Hreal. apply andb_prop in Hreal. destruct Hreal as [Hx Hrest].
  specialize (IH Hrest).
  cbn [sort fold_right]. fold (sort by_rate_descending rest).
  pose proof (sort_In by_rate_descending rest) as Hin.
  destruct (sort by_rate_descending rest) as [|y sorted].
  - cbn [nth_error] in IH. subst rest. cbn [sort_insert nth_error].
    exists [], []. split; [reflexivity|]. split; intros e [].
  - cbn [nth_error] in IH. destruct IH as (before & after & E & Hb & Ha).
    assert (real_number (SourceConversion.rate y) = true) as Hy.
    { unfold real_rates in Hrest. rewrite forallb_forall in Hrest.
      apply Hrest, Hin. left; reflexivity. }
    cbn [sort_insert]. rewrite (by_rate_descending_positive x y Hx Hy).
    destruct (Z.ltb_spec (rate_place x) (rate_place y)) as [Hlt|Hge]; cbn [nth_error].
    + exists (x :: before), after. split; [rewrite E; reflexivity|].
      split; [|exact Ha]. intros e [<-|He]; [exact Hlt | apply Hb; exact He].
    + exists [], rest. split; [reflexivity|]. split; [intros e []|].
      intros e He. rewrite E in He. apply in_app_or in He.
      destruct He as [He|[<-|He]].
      * specialize (Hb e He). lia.
      * exact Hge.
      * specialize (Ha e He). lia.
Qed.

Lemma real_rates_In (entries : list SourceConversion.t) (e : SourceConversion.t) :
  real_rates entries = true -> In e entries ->
  real_number (SourceConversion.rate e) = true.
Proof.
  unfold real_rates. rewrite forallb_forall. intros H He. exact (H e He).
Qed.

(** X13. [topSource]: it is null exactly when there are no source entries;
    otherwise it is the first, in table order, of the entries with the
    greatest win rate: every entry before it has a strictly smaller rate and
    no entry after it has a greater one.  The rates are binary64 values
    other than NaN. *)
Theorem topSource_first_of_the_best (s : DashboardState) :
  real_rates (sourceConversions s) = true ->
  match topSource s with
  | None => sourceConversions s = []
  | Some top =>
      exists before after,
        sourceConversions s = before ++ top :: after /\
        (forall e, In e before ->
                   number_ltb (SourceConversion.rate e) (SourceConversion.rate top) = true) /\
        (forall e, In e after ->
                   number_leb (SourceConversion.rate e) (SourceConversion.rate top) = true)
  end.
Proof.
  intros Hreal. pose proof (sort_head_first_best (sourceConversions s) Hreal) as H.
  unfold topSource.
  destruct (sourceConversions s) as [|x rest] eqn:E; [reflexivity|].
  destruct (nth_error (sort by_rate_descending (x :: rest)) 0) as [top|]; [|exact H].
  destruct H as (before & after & Eq & Hb & Ha).
  exists before, after. split; [exact Eq|].
  assert (In top (x :: rest)) as Htop by (rewrite Eq; apply in_or_app; right; left; reflexivity).
  pose proof (real_rates_In _ top Hreal Htop) as Rtop.
  split; intros e He.
  - rewrite number_ltb_place;
      [apply Z.ltb_lt, Hb, He
      | apply (real_rates_In _ e Hreal); rewrite Eq; apply in_or_app; left; exact He
      | exact Rtop].
  - rewrite number_leb_place;
      [apply Z.leb_le, Ha, He
      | apply (real_rates_In _ e Hreal); rewrite Eq; apply in_or_app; right; right; exact He
      | exact Rtop].
Qed.

Lemma topSource_first_of_the_best_witness :
  let entries := [entry_with_rate "Referral" 1; entry_with_rate "Ads" 3;
                  entry_with_rate "Web" 3; entry_with_rate "Event" 2] in
  match topSource (state_with_sources entries) with
  | None => entries = []
  | Some top =>
      exists before after,
        entries = before ++ top :: after /\
        (forall e, In e before ->
                   number_ltb (SourceConversion.rate e) (SourceConversion.rate top) = true) /\
        (forall e, In e after ->
                   number_leb (SourceConversion.rate e) (SourceConversion.rate top) = true)
  end.
Proof.
  intros entries.
  apply (topSource_first_of_the_best (state_with_sources entries)).
  vm_compute. reflexivity.
Defined.
